(** * B.A.T.M.A.N. advanced: multicast listener announcements (multicast_mla.c)

    A shallow embedding of the MLA collection and reconciliation code of
    [multicast_mla.c], and the properties of it that the design document
    states.

    Conventions of the embedding:
    - a MAC address ([uint8_t[ETH_ALEN]]) is a record of six octets, each a [Z];
      [memcmp(a, b, ETH_ALEN) == 0] is [eth_eqb a b = true];
    - a kernel [list_head] list is a Rocq [list], head first: [list_add]
      is [cons], [list_move_tail] appends at the end, and the
      [list_for_each_entry] loops are structural recursions on the list;
    - C [int] values are [Z]; the counters of this file stay far inside the
      [int] range (they are bounded by the loop guards), so no wrap-around
      occurs and none is written out;
    - [kmalloc] reads its outcome from an oracle carried by the [kernel] state,
      which also counts the objects that are allocated and not yet freed, and
      records the [pr_warn] messages;
    - locks, RCU sections and device reference counts are not modelled: they
      do not change any value computed here. *)

From Stdlib Require Import ZArith List Bool Lia.
Import ListNotations.
Local Open Scope Z_scope.

(** ** Constants *)

Definition ETH_ALEN : Z := 6.
Definition UINT8_MAX : Z := 255.
(* should match batadv_ogm_packet's mcast_num_mla *)
Definition BATADV_MLA_MAX : Z := UINT8_MAX.
Definition ENOMEM : Z := 12.
(* protocol identifiers, as the numbers a __be16 field denotes *)
Definition ETH_P_IP : Z := 0x0800.
Definition ETH_P_IPV6 : Z := 0x86DD.

(** Build configuration: the two preprocessor switches the file tests. *)
Record config := Config {
  CONFIG_IPV6 : bool;
  CONFIG_BATMAN_ADV_MCAST_BRIDGE_SNOOP : bool
}.

(** ** Addresses *)

Record eth_addr := EthAddr {
  o0 : Z; o1 : Z; o2 : Z; o3 : Z; o4 : Z; o5 : Z
}.

(* memcmp(a, b, ETH_ALEN) == 0 *)
Definition eth_eqb (a b : eth_addr) : bool :=
  (o0 a =? o0 b) && (o1 a =? o1 b) && (o2 a =? o2 b) &&
  (o3 a =? o3 b) && (o4 a =? o4 b) && (o5 a =? o5 b).

(* memset(dst, 0, ETH_ALEN) *)
Definition eth_zero : eth_addr := EthAddr 0 0 0 0 0 0.

(* An IPv6 address: the sixteen octets s6_addr[0..15]. *)
Definition in6_addr := list Z.
Definition s6_addr (a : in6_addr) (i : nat) : Z := nth i a 0.

(* An IPv4 group address of a device (__be32 multiaddr) is the 32-bit number
   it denotes: a.b.c.d is a*2^24 + b*2^16 + c*2^8 + d. *)

(* struct br_ip: a union of an IPv4 and an IPv6 address, and the protocol.
   The union is kept as its sixteen octets: u.ip4 is octets 0..3 and
   u.ip6.s6_addr32[3] is octets 12..15. *)
Record br_ip := BrIp {
  u : in6_addr;
  proto : Z
}.

(** Modelled from the spec: the kernel's RFC 2464 mapping [ipv6_eth_mc_map]
    (a kernel header, not part of this file): 33:33 followed by the last four
    octets of the group address. *)
Definition ipv6_eth_mc_map (addr : in6_addr) : eth_addr :=
  EthAddr 0x33 0x33 (s6_addr addr 12) (s6_addr addr 13)
          (s6_addr addr 14) (s6_addr addr 15).

(** Modelled from the spec: the kernel's test of the transient flag of an
    IPv6 multicast address, [IPV6_ADDR_MC_FLAG_TRANSIENT]: bit 0x10 of the
    second octet. *)
Definition IPV6_ADDR_MC_FLAG_TRANSIENT (a : in6_addr) : bool :=
  negb (Z.land (s6_addr a 1) 0x10 =? 0).

(** Modelled from the spec: the kernel's RFC 1112 mapping [ip_eth_mc_map]:
    01:00:5e followed by the low 23 bits of the group address. *)
Definition ip_eth_mc_map (naddr : Z) : eth_addr :=
  EthAddr 0x01 0x00 0x5e
          (Z.land (Z.shiftr naddr 16) 0x7F)
          (Z.land (Z.shiftr naddr 8) 0xFF)
          (Z.land naddr 0xFF).

(** Modelled from the spec: the kernel's [ipv4_is_local_multicast]: the
    address lies in 224.0.0.0/24. *)
Definition ipv4_is_local_multicast (addr : Z) : bool :=
  Z.land addr 0xffffff00 =? 0xe0000000.

(** ** Devices *)

(* struct net_device, the fields read here:
   [mc]          the hardware multicast list walked by netdev_for_each_mc_addr;
   [ip6_ptr]     __in6_dev_get(dev): NULL, or the mca_addr of each entry of
                 idev->mc_list, in list order;
   [ip_ptr]      __in_dev_get_rcu(dev): NULL, or the multiaddr of each entry
                 walked by for_each_pmc_rcu;
   [master]      dev->master;
   [br_adjacent] what br_multicast_list_adjacent(dev, &list) returns and the
                 list it fills. *)
Local Unset Elimination Schemes.
Inductive net_device := NetDevice {
  mc : list eth_addr;
  ip6_ptr : option (list in6_addr);
  ip_ptr : option (list Z);
  master : option net_device;
  br_adjacent : Z * list br_ip
}.
Local Set Elimination Schemes.

Record batadv_hard_iface := HardIface {
  soft_iface : net_device
}.

(** ** Kernel state threaded through the collectors *)

Inductive warning :=
| Too_many_local (num_mla_max : Z)
| Too_many_local_bridge (num_mla_max : Z).

Record kernel := Kernel {
  kmalloc_oracle : list bool;  (* outcome of the next calls of kmalloc *)
  hw_addr_live : Z;            (* netdev_hw_addr objects allocated, not freed *)
  br_ip_live : Z;              (* br_ip_list objects allocated, not freed *)
  dmesg : list warning         (* pr_warn messages, oldest first *)
}.

(* kmalloc(sizeof(struct netdev_hw_addr), GFP_ATOMIC): true when it returns
   an object.  An exhausted oracle means every further call succeeds. *)
Definition kmalloc (k : kernel) : bool * kernel :=
  match kmalloc_oracle k with
  | [] =>
      (true, Kernel [] (hw_addr_live k + 1) (br_ip_live k) (dmesg k))
  | true :: o =>
      (true, Kernel o (hw_addr_live k + 1) (br_ip_live k) (dmesg k))
  | false :: o =>
      (false, Kernel o (hw_addr_live k) (br_ip_live k) (dmesg k))
  end.

(* kfree of one netdev_hw_addr *)
Definition kfree (k : kernel) : kernel :=
  Kernel (kmalloc_oracle k) (hw_addr_live k - 1) (br_ip_live k) (dmesg k).

Definition pr_warn (w : warning) (k : kernel) : kernel :=
  Kernel (kmalloc_oracle k) (hw_addr_live k) (br_ip_live k) (dmesg k ++ [w]).

(** ** batadv_mcast_mla_br_addr_cpy *)

Definition batadv_mcast_mla_br_addr_cpy (cfg : config) (src : br_ip)
  : eth_addr :=
  if proto src =? ETH_P_IP then
    (* RFC 1112 *)
    EthAddr 0x01 0x00 0x5e
            (Z.land (s6_addr (u src) 1) 0x7F)
            (s6_addr (u src) 2)
            (s6_addr (u src) 3)
  else if CONFIG_IPV6 cfg && (proto src =? ETH_P_IPV6) then
    (* RFC 2464 *)
    EthAddr 0x33 0x33 (s6_addr (u src) 12) (s6_addr (u src) 13)
            (s6_addr (u src) 14) (s6_addr (u src) 15)
  else
    eth_zero.

(** ** The address classifier *)

Fixpoint has_transient_ipv6_loop (addr : eth_addr) (mc_list : list in6_addr)
  : bool :=
  match mc_list with
  | [] => false
  | mca_addr :: next =>
      if negb (eth_eqb addr (ipv6_eth_mc_map mca_addr)) then
        has_transient_ipv6_loop addr next
      else if IPV6_ADDR_MC_FLAG_TRANSIENT mca_addr then true
      else has_transient_ipv6_loop addr next
  end.

Definition batadv_mcast_mla_has_transient_ipv6 (addr : eth_addr)
  (dev : net_device) : bool :=
  match ip6_ptr dev with
  | None => false
  | Some mc_list => has_transient_ipv6_loop addr mc_list
  end.

Fixpoint has_non_ll_ipv4_loop (addr : eth_addr) (mc_list : list Z) : bool :=
  match mc_list with
  | [] => false
  | multiaddr :: next =>
      if negb (eth_eqb addr (ip_eth_mc_map multiaddr)) then
        has_non_ll_ipv4_loop addr next
      else if ipv4_is_local_multicast multiaddr then
        has_non_ll_ipv4_loop addr next
      else true
  end.

Definition batadv_mcast_mla_has_non_ll_ipv4 (addr : eth_addr)
  (dev : net_device) : bool :=
  match ip_ptr dev with
  | None => false
  | Some mc_list => has_non_ll_ipv4_loop addr mc_list
  end.

Definition batadv_mcast_mla_has_unspecial_addr (addr : eth_addr)
  (dev : net_device) : bool :=
  if (o0 addr =? 0x33) && (o1 addr =? 0x33) then
    batadv_mcast_mla_has_transient_ipv6 addr dev
  else if (o0 addr =? 0x01) && (o1 addr =? 0x00) && (o2 addr =? 0x5E) then
    batadv_mcast_mla_has_non_ll_ipv4 addr dev
  else
    false.

(** ** batadv_mcast_mla_get_master *)

Definition batadv_mcast_mla_get_master (dev : net_device)
  : option net_device := master dev.

(** ** batadv_mcast_mla_local_collect *)

(* The body of the netdev_for_each_mc_addr loop.  The result is
   (ret, num_mla, mcast_list, kernel) when the loop is left. *)
Fixpoint local_collect_loop (dev : net_device) (num_mla_max : Z)
  (mc_list : list eth_addr) (num_mla : Z) (mcast_list : list eth_addr)
  (k : kernel) : Z * Z * list eth_addr * kernel :=
  match mc_list with
  | [] => (0, num_mla, mcast_list, k)
  | mc_list_entry :: rest =>
      if num_mla >=? num_mla_max then
        (0, num_mla, mcast_list, pr_warn (Too_many_local num_mla_max) k)
      else if negb (batadv_mcast_mla_has_unspecial_addr mc_list_entry dev) then
        local_collect_loop dev num_mla_max rest num_mla mcast_list k
      else
        match kmalloc k with
        | (false, k') => (- ENOMEM, num_mla, mcast_list, k')
        | (true, k') =>
            local_collect_loop dev num_mla_max rest (num_mla + 1)
                               (mc_list_entry :: mcast_list) k'
        end
  end.

(* master = batadv_mcast_mla_get_master(dev); dev = master ? master : dev:
   if our soft interface is part of a master (e.g. a bridge)
   then let's use that one instead *)
Definition local_collect_dev (dev : net_device) : net_device :=
  match batadv_mcast_mla_get_master dev with
  | Some master => master
  | None => dev
  end.

Definition batadv_mcast_mla_local_collect (dev : net_device)
  (mcast_list : list eth_addr) (num_mla_max : Z) (k : kernel)
  : Z * list eth_addr * kernel :=
  let dev := local_collect_dev dev in
  let '(ret, num_mla, mcast_list, k) :=
    local_collect_loop dev num_mla_max (mc dev) 0 mcast_list k in
  (if ret <? 0 then ret else num_mla, mcast_list, k).

(** ** batadv_mcast_mla_is_duplicate *)

Fixpoint batadv_mcast_mla_is_duplicate (mcast_addr : eth_addr)
  (mcast_list : list eth_addr) : bool :=
  match mcast_list with
  | [] => false
  | mcast_entry :: rest =>
      if eth_eqb mcast_entry mcast_addr then true
      else batadv_mcast_mla_is_duplicate mcast_addr rest
  end.

(** ** batadv_mcast_mla_bridge_collect *)

(** Modelled from the spec: the bridge's snooping query
    [br_multicast_list_adjacent] (bridge code, not part of this file): it
    returns a status and fills the list with one allocated entry for each
    group address snooped on the other ports. *)
Definition br_multicast_list_adjacent (dev : net_device) (k : kernel)
  : Z * list br_ip * kernel :=
  let '(ret, l) := br_adjacent dev in
  (ret, l, Kernel (kmalloc_oracle k) (hw_addr_live k)
                  (br_ip_live k + Z.of_nat (length l)) (dmesg k)).

(* list_for_each_entry_safe { list_del; kfree } over the bridge list *)
Fixpoint br_ip_list_free (bridge_mcast_list : list br_ip) (k : kernel)
  : list br_ip * kernel :=
  match bridge_mcast_list with
  | [] => ([], k)
  | _ :: rest =>
      br_ip_list_free rest
        (Kernel (kmalloc_oracle k) (hw_addr_live k) (br_ip_live k - 1)
                (dmesg k))
  end.

Fixpoint bridge_collect_loop (cfg : config) (num_mla_max : Z)
  (bridge_mcast_list : list br_ip) (ret num_mla : Z)
  (mcast_list : list eth_addr) (k : kernel)
  : Z * Z * list eth_addr * kernel :=
  match bridge_mcast_list with
  | [] => (ret, num_mla, mcast_list, k)
  | br_ip_entry :: rest =>
      if num_mla >=? num_mla_max then
        (ret, num_mla, mcast_list,
         pr_warn (Too_many_local_bridge num_mla_max) k)
      else
        let mcast_addr := batadv_mcast_mla_br_addr_cpy cfg br_ip_entry in
        if batadv_mcast_mla_is_duplicate mcast_addr mcast_list then
          bridge_collect_loop cfg num_mla_max rest ret num_mla mcast_list k
        else
          match kmalloc k with
          | (false, k') => (- ENOMEM, num_mla, mcast_list, k')
          | (true, k') =>
              bridge_collect_loop cfg num_mla_max rest ret (num_mla + 1)
                                  (mcast_addr :: mcast_list) k'
          end
  end.

(* The result is (return value, mcast_list, the emptied bridge list, kernel). *)
Definition batadv_mcast_mla_bridge_collect (cfg : config)
  (soft_iface : net_device) (mcast_list : list eth_addr) (num_mla_max : Z)
  (k : kernel) : Z * list eth_addr * list br_ip * kernel :=
  let '(ret, bridge_mcast_list, k) := br_multicast_list_adjacent soft_iface k in
  let '(ret, num_mla, mcast_list, k) :=
    if ret <? 0 then (ret, 0, mcast_list, k)
    else bridge_collect_loop cfg num_mla_max bridge_mcast_list ret 0
                             mcast_list k in
  (* out: *)
  let '(bridge_mcast_list, k) := br_ip_list_free bridge_mcast_list k in
  (if ret <? 0 then ret else num_mla, mcast_list, bridge_mcast_list, k).

(** ** batadv_mcast_mla_collect_free *)

Fixpoint batadv_mcast_mla_collect_free (mcast_list : list eth_addr)
  (k : kernel) : list eth_addr * kernel :=
  match mcast_list with
  | [] => ([], k)
  | _ :: rest => batadv_mcast_mla_collect_free rest (kfree k)
  end.

(** ** The translation table and the announced list *)

(* The local translation table is code of translation-table.c; the engine
   only calls its add and remove operations, so it is kept abstract. *)
Class TranslationTable (table : Type) := {
  batadv_tt_local_add : eth_addr -> table -> table;
  batadv_tt_local_remove : eth_addr -> table -> table
}.

(* One instance: the table as the log of the calls made on it, oldest first. *)
Inductive tt_call :=
| Tt_local_add (addr : eth_addr)
| Tt_local_remove (addr : eth_addr).

#[export] Instance tt_call_log : TranslationTable (list tt_call) := {|
  batadv_tt_local_add := fun a t => t ++ [Tt_local_add a];
  batadv_tt_local_remove := fun a t => t ++ [Tt_local_remove a]
|}.

(* struct batadv_priv, the fields used here:
   [mcast_group_awareness]  the atomic switch of the multicast optimization;
   [primary_if]             what batadv_primary_if_get_selected returns;
   [mla_list]               bat_priv->mcast.mla_list, the announced addresses;
   [tt]                     the local translation table. *)
Record batadv_priv (table : Type) := BatPriv {
  mcast_group_awareness : Z;
  primary_if : option batadv_hard_iface;
  mla_list : list eth_addr;
  tt : table
}.
Arguments BatPriv {table}.
Arguments mcast_group_awareness {table}.
Arguments primary_if {table}.
Arguments mla_list {table}.
Arguments tt {table}.

(** ** batadv_mcast_mla_tt_clean *)

(* The loop over bat_priv->mcast.mla_list: the entries that stay, the table
   and the kernel afterwards. *)
Fixpoint tt_clean_loop {table} `{TranslationTable table}
  (mla : list eth_addr) (mcast_list : list eth_addr) (t : table) (k : kernel)
  : list eth_addr * table * kernel :=
  match mla with
  | [] => ([], t, k)
  | mcast_entry :: rest =>
      if batadv_mcast_mla_is_duplicate mcast_entry mcast_list then
        let '(kept, t', k') := tt_clean_loop rest mcast_list t k in
        (mcast_entry :: kept, t', k')
      else
        tt_clean_loop rest mcast_list
                      (batadv_tt_local_remove mcast_entry t) (kfree k)
  end.

Definition batadv_mcast_mla_tt_clean {table} `{TranslationTable table}
  (bat_priv : batadv_priv table) (mcast_list : list eth_addr) (k : kernel)
  : batadv_priv table * kernel :=
  let '(mla, t, k) :=
    tt_clean_loop (mla_list bat_priv) mcast_list (tt bat_priv) k in
  (BatPriv (mcast_group_awareness bat_priv) (primary_if bat_priv) mla t, k).

(** ** batadv_mcast_mla_tt_add *)

(* The loop over mcast_list: the entries left in mcast_list, the announced
   list and the table afterwards. *)
Fixpoint tt_add_loop {table} `{TranslationTable table}
  (mcast_list : list eth_addr) (mla : list eth_addr) (t : table)
  : list eth_addr * list eth_addr * table :=
  match mcast_list with
  | [] => ([], mla, t)
  | mcast_entry :: rest =>
      if batadv_mcast_mla_is_duplicate mcast_entry mla then
        let '(skipped, mla', t') := tt_add_loop rest mla t in
        (mcast_entry :: skipped, mla', t')
      else
        (* list_move_tail *)
        tt_add_loop rest (mla ++ [mcast_entry])
                    (batadv_tt_local_add mcast_entry t)
  end.

Definition batadv_mcast_mla_tt_add {table} `{TranslationTable table}
  (bat_priv : batadv_priv table) (mcast_list : list eth_addr)
  : batadv_priv table * list eth_addr :=
  let '(skipped, mla, t) :=
    tt_add_loop mcast_list (mla_list bat_priv) (tt bat_priv) in
  (BatPriv (mcast_group_awareness bat_priv) (primary_if bat_priv) mla t,
   skipped).

(** ** batadv_mcast_mla_tt_update *)

(* out: *)
Definition tt_update_out {table} (bat_priv : batadv_priv table)
  (mcast_list : list eth_addr) (k : kernel)
  : batadv_priv table * list eth_addr * kernel :=
  let '(mcast_list, k) := batadv_mcast_mla_collect_free mcast_list k in
  (bat_priv, mcast_list, k).

(* update: *)
Definition tt_update_update {table} `{TranslationTable table}
  (bat_priv : batadv_priv table) (mcast_list : list eth_addr) (k : kernel)
  : batadv_priv table * list eth_addr * kernel :=
  let '(bat_priv, k) := batadv_mcast_mla_tt_clean bat_priv mcast_list k in
  let '(bat_priv, mcast_list) := batadv_mcast_mla_tt_add bat_priv mcast_list in
  tt_update_out bat_priv mcast_list k.

(* The function names [num_mla] in the budget of the bridge collector, an
   identifier it does not declare: its value is a parameter here.  The
   result is bat_priv, the local mcast_list and the kernel at the return. *)
Definition batadv_mcast_mla_tt_update {table} `{TranslationTable table}
  (cfg : config) (num_mla : Z) (bat_priv : batadv_priv table) (k : kernel)
  : batadv_priv table * list eth_addr * kernel :=
  let mcast_list := [] in
  match primary_if bat_priv with
  | None => tt_update_out bat_priv mcast_list k
  | Some primary_if =>
      let soft_iface := soft_iface primary_if in
      (* Avoid attaching MLAs, if multicast optimization is disabled *)
      if mcast_group_awareness bat_priv =? 0 then
        tt_update_update bat_priv mcast_list k
      else
        let '(ret, mcast_list, k) :=
          batadv_mcast_mla_local_collect soft_iface mcast_list
                                         BATADV_MLA_MAX k in
        if ret <? 0 then tt_update_out bat_priv mcast_list k
        else if CONFIG_BATMAN_ADV_MCAST_BRIDGE_SNOOP cfg then
          let '(ret, mcast_list, _, k) :=
            batadv_mcast_mla_bridge_collect cfg soft_iface mcast_list
                                            (BATADV_MLA_MAX - num_mla) k in
          if ret <? 0 then tt_update_out bat_priv mcast_list k
          else tt_update_update bat_priv mcast_list k
        else tt_update_update bat_priv mcast_list k
  end.

(** ** batadv_mcast_mla_len *)

(* The value of a C int expression computed in Z: two's complement
   wrap-around to 32 bits. *)
Definition wrap_int (z : Z) : Z := (z + 2 ^ 31) mod 2 ^ 32 - 2 ^ 31.

Definition batadv_mcast_mla_len (num_mla : Z) : Z :=
  wrap_int (num_mla * ETH_ALEN).

(** ** The debugfs dumps *)

(* What seq_printf appends to a seq_file, one item for each call.  The local
   header names the device the addresses are read from and, when that is a
   master, the interface it is the master of. *)
Inductive seq_line :=
| Seq_local_header (from : net_device) (master_of : option net_device)
| Seq_bridge_header (from : net_device)
| Seq_mac (addr : eth_addr).

Definition seq_printf (line : seq_line) (seq : list seq_line)
  : list seq_line := seq ++ [line].

Fixpoint local_seq_print_loop (dev : net_device) (mc_list : list eth_addr)
  (seq : list seq_line) : list seq_line :=
  match mc_list with
  | [] => seq
  | mc_list_entry :: rest =>
      if negb (batadv_mcast_mla_has_unspecial_addr mc_list_entry dev) then
        local_seq_print_loop dev rest seq
      else
        local_seq_print_loop dev rest (seq_printf (Seq_mac mc_list_entry) seq)
  end.

(* seq->private is [net_dev]; the result is the return value and the
   seq_file afterwards. *)
Definition batadv_mcast_mla_local_seq_print_text (net_dev : net_device)
  (seq : list seq_line) : Z * list seq_line :=
  let master := batadv_mcast_mla_get_master net_dev in
  let seq :=
    seq_printf
      (Seq_local_header
         (match master with Some m => m | None => net_dev end)
         (match master with Some _ => Some net_dev | None => None end))
      seq in
  let dev := match master with Some m => m | None => net_dev end in
  (0, local_seq_print_loop dev (mc dev) seq).

Fixpoint bridge_seq_print_loop (cfg : config) (bridge_mc_list : list br_ip)
  (seq : list seq_line) (k : kernel) : list br_ip * list seq_line * kernel :=
  match bridge_mc_list with
  | [] => ([], seq, k)
  | br_ip_entry :: rest =>
      let buff := batadv_mcast_mla_br_addr_cpy cfg br_ip_entry in
      let seq := seq_printf (Seq_mac buff) seq in
      (* list_del; kfree *)
      bridge_seq_print_loop cfg rest seq
        (Kernel (kmalloc_oracle k) (hw_addr_live k) (br_ip_live k - 1)
                (dmesg k))
  end.

(* The result is the return value, the seq_file, the bridge list and the
   kernel afterwards. *)
Definition batadv_mcast_mla_bridge_seq_print_text (cfg : config)
  (net_dev : net_device) (seq : list seq_line) (k : kernel)
  : Z * list seq_line * list br_ip * kernel :=
  let '(_, bridge_mc_list, k) := br_multicast_list_adjacent net_dev k in
  let seq := seq_printf (Seq_bridge_header net_dev) seq in
  let '(bridge_mc_list, seq, k) :=
    bridge_seq_print_loop cfg bridge_mc_list seq k in
  (0, seq, bridge_mc_list, k).

(* The addresses printed in a seq_file, in order. *)
Definition seq_macs (seq : list seq_line) : list eth_addr :=
  flat_map (fun line => match line with Seq_mac a => [a] | _ => [] end) seq.

(** ** Concrete data for the examples *)

Definition ip4 (a b c d : Z) : Z := a * 2 ^ 24 + b * 2 ^ 16 + c * 2 ^ 8 + d.

(* 224.1.2.3, 224.1.2.4 and the link-local 224.0.0.251 with their MACs *)
Definition mac_A : eth_addr := EthAddr 0x01 0x00 0x5e 0x01 0x02 0x03.
Definition mac_B : eth_addr := EthAddr 0x01 0x00 0x5e 0x01 0x02 0x04.
Definition mac_C : eth_addr := EthAddr 0x01 0x00 0x5e 0x01 0x02 0x05.
Definition mac_mdns : eth_addr := EthAddr 0x01 0x00 0x5e 0x00 0x00 0xfb.
(* ff15::102:304 (transient) and ff02::1 (well-known) with their MACs *)
Definition ip6_transient : in6_addr :=
  [0xff; 0x15; 0; 0; 0; 0; 0; 0; 0; 0; 0; 0; 1; 2; 3; 4].
Definition ip6_all_nodes : in6_addr :=
  [0xff; 0x02; 0; 0; 0; 0; 0; 0; 0; 0; 0; 0; 0; 0; 0; 1].
Definition mac_6 : eth_addr := EthAddr 0x33 0x33 1 2 3 4.
Definition mac_all_nodes : eth_addr := EthAddr 0x33 0x33 0 0 0 1.

Definition kernel0 : kernel := Kernel [] 0 0 [].

(* A soft interface without master and without bridge, listening to
   224.1.2.3, 224.1.2.4, 224.0.0.251, ff15::102:304 and ff02::1. *)
Definition dev_plain : net_device :=
  NetDevice [mac_A; mac_B; mac_mdns; mac_6; mac_all_nodes]
            (Some [ip6_all_nodes; ip6_transient])
            (Some [ip4 224 1 2 3; ip4 224 0 0 251; ip4 224 1 2 4])
            None (0, []).

(* The same interface as a bridge port: the bridge has snooped 224.1.2.5 and
   an entry of an unknown protocol family behind its other ports. *)
Definition snoop_C : br_ip := BrIp [224; 1; 2; 5] ETH_P_IP.
Definition snoop_6 : br_ip :=
  BrIp [0xff; 0x15; 0; 0; 0; 0; 0; 0; 0; 0; 0; 0; 9; 9; 9; 9] ETH_P_IPV6.
Definition snoop_unknown : br_ip := BrIp [1; 2; 3; 4] 0x1234.
Definition dev_bridged (snooped : Z * list br_ip) : net_device :=
  NetDevice [mac_A; mac_B; mac_mdns; mac_6; mac_all_nodes]
            (Some [ip6_all_nodes; ip6_transient])
            (Some [ip4 224 1 2 3; ip4 224 0 0 251; ip4 224 1 2 4])
            None snooped.

(* An interface whose hardware list holds 224.1.2.3 twice. *)
Definition dev_twice : net_device :=
  NetDevice [mac_A; mac_A] None (Some [ip4 224 1 2 3]) None (0, []).

(* An interface with [n] announceable groups 224.1.i.j. *)
Definition nth_group (i : nat) : Z :=
  ip4 224 1 (Z.of_nat i / 256) (Z.of_nat i mod 256).
Definition dev_many (n : nat) (snooped : Z * list br_ip) : net_device :=
  NetDevice (map (fun i => ip_eth_mc_map (nth_group i)) (seq 0 n))
            None (Some (map nth_group (seq 0 n))) None snooped.

Definition priv_of (dev : net_device) (awareness : Z) (mla : list eth_addr)
  : batadv_priv (list tt_call) :=
  BatPriv awareness (Some (HardIface dev)) mla [].

(** * Properties *)

(** ** Equality of addresses and membership *)

Lemma eth_eqb_eq (a b : eth_addr) : eth_eqb a b = true <-> a = b.
Proof.
  destruct a, b; unfold eth_eqb; simpl.
  rewrite !andb_true_iff, !Z.eqb_eq.
  split.
  - intros [[[[[-> ->] ->] ->] ->] ->]. reflexivity.
  - intros E. injection E as -> -> -> -> -> ->. tauto.
Qed.

Lemma eth_eqb_refl (a : eth_addr) : eth_eqb a a = true.
Proof. apply eth_eqb_eq. reflexivity. Qed.

Lemma eth_eqb_neq (a b : eth_addr) : eth_eqb a b = false <-> a <> b.
Proof.
  rewrite <- eth_eqb_eq. destruct (eth_eqb a b); split; congruence.
Qed.

Lemma is_duplicate_In (a : eth_addr) (l : list eth_addr) :
  batadv_mcast_mla_is_duplicate a l = true <-> In a l.
Proof.
  induction l as [|e l IH]; simpl.
  - split; [discriminate | tauto].
  - destruct (eth_eqb e a) eqn:E.
    + apply eth_eqb_eq in E. tauto.
    + apply eth_eqb_neq in E. rewrite IH. tauto.
Qed.

Lemma is_duplicate_not_In (a : eth_addr) (l : list eth_addr) :
  batadv_mcast_mla_is_duplicate a l = false <-> ~ In a l.
Proof.
  rewrite <- is_duplicate_In.
  destruct (batadv_mcast_mla_is_duplicate a l); split; congruence.
Qed.

(** ** The classifier *)

Lemma has_transient_ipv6_loop_spec (addr : eth_addr) (l : list in6_addr) :
  has_transient_ipv6_loop addr l = true <->
  exists g, In g l /\ ipv6_eth_mc_map g = addr /\
            IPV6_ADDR_MC_FLAG_TRANSIENT g = true.
Proof.
  induction l as [|g l IH]; simpl.
  - split; [discriminate | intros [g [[] _]]].
  - destruct (eth_eqb addr (ipv6_eth_mc_map g)) eqn:E; simpl.
    + apply eth_eqb_eq in E.
      destruct (IPV6_ADDR_MC_FLAG_TRANSIENT g) eqn:T.
      * split; [intros _; exists g; auto | reflexivity].
      * rewrite IH. split.
        -- intros [g' [Hin H]]. exists g'. tauto.
        -- intros [g' [[->|Hin] [H1 H2]]]; [congruence | exists g'; tauto].
    + apply eth_eqb_neq in E. rewrite IH. split.
      * intros [g' [Hin H]]. exists g'. tauto.
      * intros [g' [[->|Hin] [H1 H2]]]; [congruence | exists g'; tauto].
Qed.

Lemma has_non_ll_ipv4_loop_spec (addr : eth_addr) (l : list Z) :
  has_non_ll_ipv4_loop addr l = true <->
  exists g, In g l /\ ip_eth_mc_map g = addr /\
            ipv4_is_local_multicast g = false.
Proof.
  induction l as [|g l IH]; simpl.
  - split; [discriminate | intros [g [[] _]]].
  - destruct (eth_eqb addr (ip_eth_mc_map g)) eqn:E; simpl.
    + apply eth_eqb_eq in E.
      destruct (ipv4_is_local_multicast g) eqn:T.
      * rewrite IH. split.
        -- intros [g' [Hin H]]. exists g'. tauto.
        -- intros [g' [[->|Hin] [H1 H2]]]; [congruence | exists g'; tauto].
      * split; [intros _; exists g; auto | reflexivity].
    + apply eth_eqb_neq in E. rewrite IH. split.
      * intros [g' [Hin H]]. exists g'. tauto.
      * intros [g' [[->|Hin] [H1 H2]]]; [congruence | exists g'; tauto].
Qed.

(** The link-local test singles out exactly 224.0.0.0/24. *)
Lemma ipv4_is_local_multicast_range (g : Z) :
  0 <= g < 2 ^ 32 ->
  (ipv4_is_local_multicast g = true <->
   ip4 224 0 0 0 <= g <= ip4 224 0 0 255).
Proof.
  intros Hg. unfold ipv4_is_local_multicast, ip4.
  rewrite Z.eqb_eq.
  assert (E : Z.land g 0xffffff00 = 256 * (g / 256)).
  { change 0xffffff00 with (Z.shiftl (Z.ones 24) 8).
    apply Z.bits_inj'. intros n Hn.
    rewrite Z.land_spec.
    replace (256 * (g / 256)) with (Z.shiftl (Z.shiftr g 8) 8)
      by (rewrite Z.shiftl_mul_pow2, Z.shiftr_div_pow2 by lia;
          change (2 ^ 8) with 256; lia).
    rewrite !Z.shiftl_spec by lia.
    destruct (Z.ltb_spec n 8) as [L|L].
    - rewrite !(Z.testbit_neg_r _ (n - 8)) by lia. apply andb_false_r.
    - rewrite Z.shiftr_spec by lia. replace (n - 8 + 8) with n by lia.
      destruct (Z.ltb_spec (n - 8) 24) as [L2|L2].
      + rewrite Z.ones_spec_low by lia. apply andb_true_r.
      + rewrite Z.ones_spec_high by lia. rewrite andb_false_r.
        symmetry. apply Z.bits_above_log2; [lia|].
        destruct (Z.eq_dec g 0) as [->|NZ]; [simpl; lia|].
        apply Z.log2_lt_pow2; [lia|].
        apply Z.lt_le_trans with (2 ^ 32); [lia|].
        apply Z.pow_le_mono_r; lia. }
  rewrite E. change (2 ^ 24) with 16777216. change (2 ^ 16) with 65536.
  change (2 ^ 8) with 256.
  pose proof (Z.div_mod g 256 ltac:(lia)).
  pose proof (Z.mod_pos_bound g 256 ltac:(lia)).
  lia.
Qed.

(** C3.  The classifier [batadv_mcast_mla_has_unspecial_addr]: for an
    address 33:33:.. it answers true exactly when the device has a joined
    IPv6 group whose mapped MAC is the address and whose address carries the
    transient flag; for an address 01:00:5E:.. exactly when the device has a
    joined IPv4 group whose mapped MAC is the address and which is not
    link-local (224.0.0.0/24, see [ipv4_is_local_multicast_range]); and it
    answers false for every other address. *)
Theorem has_unspecial_addr_classifies (addr : eth_addr) (dev : net_device) :
  (o0 addr = 0x33 /\ o1 addr = 0x33 ->
   (batadv_mcast_mla_has_unspecial_addr addr dev = true <->
    exists groups g,
      ip6_ptr dev = Some groups /\ In g groups /\
      ipv6_eth_mc_map g = addr /\ IPV6_ADDR_MC_FLAG_TRANSIENT g = true)) /\
  (o0 addr = 0x01 /\ o1 addr = 0x00 /\ o2 addr = 0x5E ->
   (batadv_mcast_mla_has_unspecial_addr addr dev = true <->
    exists groups g,
      ip_ptr dev = Some groups /\ In g groups /\
      ip_eth_mc_map g = addr /\ ipv4_is_local_multicast g = false)) /\
  (~ (o0 addr = 0x33 /\ o1 addr = 0x33) ->
   ~ (o0 addr = 0x01 /\ o1 addr = 0x00 /\ o2 addr = 0x5E) ->
   batadv_mcast_mla_has_unspecial_addr addr dev = false).
Proof.
  unfold batadv_mcast_mla_has_unspecial_addr.
  split; [|split].
  - intros [H0 H1]. rewrite H0, H1. simpl.
    unfold batadv_mcast_mla_has_transient_ipv6.
    destruct (ip6_ptr dev) as [groups|].
    + rewrite has_transient_ipv6_loop_spec. split.
      * intros [g Hg]. exists groups, g. tauto.
      * intros [groups' [g [E Hg]]]. injection E as <-. exists g. exact Hg.
    + split; [discriminate | intros [? [? [E _]]]; discriminate E].
  - intros [H0 [H1 H2]]. rewrite H0, H1, H2. simpl.
    unfold batadv_mcast_mla_has_non_ll_ipv4.
    destruct (ip_ptr dev) as [groups|].
    + rewrite has_non_ll_ipv4_loop_spec. split.
      * intros [g Hg]. exists groups, g. tauto.
      * intros [groups' [g [E Hg]]]. injection E as <-. exists g. exact Hg.
    + split; [discriminate | intros [? [? [E _]]]; discriminate E].
  - intros N6 N4.
    destruct ((o0 addr =? 0x33) && (o1 addr =? 0x33)) eqn:E6.
    + apply andb_true_iff in E6. rewrite !Z.eqb_eq in E6. tauto.
    + destruct ((o0 addr =? 0x01) && (o1 addr =? 0x00) && (o2 addr =? 0x5E))
        eqn:E4; [|reflexivity].
      rewrite !andb_true_iff, !Z.eqb_eq in E4. tauto.
Qed.

Lemma has_unspecial_addr_classifies_witness :
  batadv_mcast_mla_has_unspecial_addr mac_A dev_plain = true /\
  batadv_mcast_mla_has_unspecial_addr mac_6 dev_plain = true /\
  batadv_mcast_mla_has_unspecial_addr eth_zero dev_plain = false.
Proof.
  split; [|split].
  - apply (proj1 (proj2 (has_unspecial_addr_classifies mac_A dev_plain))).
    + repeat split.
    + exists [ip4 224 1 2 3; ip4 224 0 0 251; ip4 224 1 2 4], (ip4 224 1 2 3).
      repeat split. simpl. auto.
  - apply (proj1 (has_unspecial_addr_classifies mac_6 dev_plain)).
    + repeat split.
    + exists [ip6_all_nodes; ip6_transient], ip6_transient.
      repeat split. simpl. auto.
  - apply (proj2 (proj2 (has_unspecial_addr_classifies eth_zero dev_plain))).
    + intros [H _]. discriminate H.
    + intros [H _]. discriminate H.
Defined.

(** The scenarios of the design document: the well-known ff02::1 and the
    link-local 224.0.0.251 are not announced, 224.1.2.3 is. *)
Example classifier_scenarios :
  batadv_mcast_mla_has_unspecial_addr mac_all_nodes dev_plain = false /\
  batadv_mcast_mla_has_unspecial_addr mac_mdns dev_plain = false /\
  batadv_mcast_mla_has_unspecial_addr mac_A dev_plain = true.
Proof. repeat split. Qed.

(** ** The allocator *)

Lemma kmalloc_true (k k1 : kernel) :
  kmalloc k = (true, k1) ->
  hw_addr_live k1 = hw_addr_live k + 1 /\ br_ip_live k1 = br_ip_live k /\
  dmesg k1 = dmesg k.
Proof.
  unfold kmalloc. destruct (kmalloc_oracle k) as [|[|] o];
    intros E; inversion E; subst; simpl; auto.
Qed.

Lemma kmalloc_false (k k1 : kernel) :
  kmalloc k = (false, k1) ->
  hw_addr_live k1 = hw_addr_live k /\ br_ip_live k1 = br_ip_live k /\
  dmesg k1 = dmesg k.
Proof.
  unfold kmalloc. destruct (kmalloc_oracle k) as [|[|] o];
    intros E; inversion E; subst; simpl; auto.
Qed.

Lemma collect_free_spec (l : list eth_addr) : forall k,
  exists k', batadv_mcast_mla_collect_free l k = ([], k') /\
    hw_addr_live k' = hw_addr_live k - Z.of_nat (length l) /\
    br_ip_live k' = br_ip_live k /\
    kmalloc_oracle k' = kmalloc_oracle k /\ dmesg k' = dmesg k.
Proof.
  induction l as [|e l IH]; intros k.
  - exists k. simpl. repeat split; lia.
  - destruct (IH (kfree k)) as [k' [E [H1 [H2 [H3 H4]]]]].
    exists k'. cbn [batadv_mcast_mla_collect_free length].
    rewrite E. simpl in *. repeat split; try assumption. lia.
Qed.

Lemma br_ip_list_free_spec (l : list br_ip) : forall k,
  exists k', br_ip_list_free l k = ([], k') /\
    hw_addr_live k' = hw_addr_live k /\
    br_ip_live k' = br_ip_live k - Z.of_nat (length l) /\
    kmalloc_oracle k' = kmalloc_oracle k /\ dmesg k' = dmesg k.
Proof.
  induction l as [|e l IH]; intros k.
  - exists k. simpl. repeat split; lia.
  - destruct (IH (Kernel (kmalloc_oracle k) (hw_addr_live k)
                         (br_ip_live k - 1) (dmesg k)))
      as [k' [E [H1 [H2 [H3 H4]]]]].
    exists k'. cbn [br_ip_list_free length].
    rewrite E. simpl in *. repeat split; try assumption. lia.
Qed.

(** ** The local collector *)

Lemma geb_false_lt (n m : Z) : (n >=? m) = false -> n < m.
Proof. rewrite Z.geb_leb. apply Z.leb_gt. Qed.

(* What the loop of the local collector has done when it is left: the
   entries [kept] were put in front of the list, newest first. *)
Lemma local_collect_loop_inv (dev : net_device) (num_mla_max : Z) :
  forall mc_list num_mla l k ret num_mla' l' k',
    local_collect_loop dev num_mla_max mc_list num_mla l k
      = (ret, num_mla', l', k') ->
    exists kept,
      l' = kept ++ l /\
      Forall (fun a => In a mc_list /\
                batadv_mcast_mla_has_unspecial_addr a dev = true) kept /\
      num_mla' = num_mla + Z.of_nat (length kept) /\
      hw_addr_live k' = hw_addr_live k + Z.of_nat (length kept) /\
      br_ip_live k' = br_ip_live k /\
      (ret = 0 \/ ret = - ENOMEM) /\
      (kept <> [] -> num_mla' <= num_mla_max).
Proof.
  induction mc_list as [|e rest IH]; intros n l k ret n' l' k' E;
    cbn [local_collect_loop] in E.
  - inversion E; subst. exists []. simpl.
    repeat split; auto; try lia; try congruence.
  - destruct (n >=? num_mla_max) eqn:G.
    { inversion E; subst. exists []. simpl.
      repeat split; auto; try lia; try congruence. }
    destruct (batadv_mcast_mla_has_unspecial_addr e dev) eqn:U; simpl in E.
    2:{ destruct (IH _ _ _ _ _ _ _ E) as [kept [H1 [H2 H3]]].
        exists kept. split; [exact H1|]. split; [|exact H3].
        eapply Forall_impl; [|exact H2]. simpl. tauto. }
    destruct (kmalloc k) as [[|] k1] eqn:K.
    + apply kmalloc_true in K. destruct K as [K1 [K2 K3]].
      destruct (IH _ _ _ _ _ _ _ E) as [kept [H1 [H2 [H3 [H4 [H5 [H6 H7]]]]]]].
      exists (kept ++ [e]). rewrite <- app_assoc. simpl.
      split; [exact H1|]. split.
      { apply Forall_app. split.
        - eapply Forall_impl; [|exact H2]. simpl. tauto.
        - constructor; [|constructor]. simpl. auto. }
      rewrite length_app. simpl.
      repeat split; try lia; try assumption.
      intros _. destruct kept as [|x kept].
      * simpl in H3. apply geb_false_lt in G. lia.
      * apply H7. discriminate.
    + apply kmalloc_false in K. destruct K as [K1 [K2 K3]].
      inversion E; subst. exists []. simpl.
      repeat split; auto; try lia; try congruence.
Qed.

(* The loop keeps a list free of repetitions so, as long as the hardware
   list it walks has none. *)
Lemma local_collect_loop_NoDup (dev : net_device) (num_mla_max : Z) :
  forall mc_list num_mla l k ret num_mla' l' k',
    local_collect_loop dev num_mla_max mc_list num_mla l k
      = (ret, num_mla', l', k') ->
    NoDup mc_list -> NoDup l -> (forall a, In a mc_list -> ~ In a l) ->
    NoDup l'.
Proof.
  induction mc_list as [|e rest IH]; intros n l k ret n' l' k' E ND NL D;
    cbn [local_collect_loop] in E.
  - inversion E; subst. exact NL.
  - inversion ND as [|? ? Hn ND']; subst.
    destruct (n >=? num_mla_max).
    { inversion E; subst. exact NL. }
    destruct (batadv_mcast_mla_has_unspecial_addr e dev); simpl in E.
    2:{ eapply IH; eauto. intros a Ha. apply D. right. exact Ha. }
    destruct (kmalloc k) as [[|] k1].
    + eapply IH; [exact E | exact ND' | |].
      * constructor; [apply D; left; reflexivity | exact NL].
      * intros a Ha [->|Hl]; [contradiction|].
        apply (D a); [right; exact Ha | exact Hl].
    + inversion E; subst. exact NL.
Qed.

(** ** The bridge collector *)

Lemma bridge_collect_loop_inv (cfg : config) (num_mla_max : Z) :
  forall br_list ret0 num_mla l k ret num_mla' l' k',
    bridge_collect_loop cfg num_mla_max br_list ret0 num_mla l k
      = (ret, num_mla', l', k') ->
    exists added,
      l' = added ++ l /\
      Forall (fun a => In a (map (batadv_mcast_mla_br_addr_cpy cfg) br_list))
             added /\
      num_mla' = num_mla + Z.of_nat (length added) /\
      hw_addr_live k' = hw_addr_live k + Z.of_nat (length added) /\
      br_ip_live k' = br_ip_live k /\
      (ret = ret0 \/ ret = - ENOMEM) /\
      (added <> [] -> num_mla' <= num_mla_max).
Proof.
  induction br_list as [|e rest IH]; intros r0 n l k ret n' l' k' E;
    cbn [bridge_collect_loop] in E.
  - inversion E; subst. exists []. simpl.
    repeat split; auto; try lia; try congruence.
  - destruct (n >=? num_mla_max) eqn:G.
    { inversion E; subst. exists []. simpl.
      repeat split; auto; try lia; try congruence. }
    cbv zeta in E.
    destruct (batadv_mcast_mla_is_duplicate
                (batadv_mcast_mla_br_addr_cpy cfg e) l) eqn:U.
    { destruct (IH _ _ _ _ _ _ _ _ E) as [added [H1 [H2 H3]]].
      exists added. split; [exact H1|]. split; [|exact H3].
      eapply Forall_impl; [|exact H2]. simpl. tauto. }
    destruct (kmalloc k) as [[|] k1] eqn:K.
    + apply kmalloc_true in K. destruct K as [K1 [K2 K3]].
      destruct (IH _ _ _ _ _ _ _ _ E)
        as [added [H1 [H2 [H3 [H4 [H5 [H6 H7]]]]]]].
      exists (added ++ [batadv_mcast_mla_br_addr_cpy cfg e]).
      rewrite <- app_assoc. simpl.
      split; [exact H1|]. split.
      { apply Forall_app. split.
        - eapply Forall_impl; [|exact H2]. simpl. tauto.
        - constructor; [|constructor]. simpl. auto. }
      rewrite length_app. simpl.
      repeat split; try lia; try assumption.
      intros _. destruct added as [|x added].
      * simpl in H3. apply geb_false_lt in G. lia.
      * apply H7. discriminate.
    + apply kmalloc_false in K. destruct K as [K1 [K2 K3]].
      inversion E; subst. exists []. simpl.
      repeat split; auto; try lia; try congruence.
Qed.

(* The duplicate test of the bridge collector keeps the list free of
   repetitions, whatever the bridge reports. *)
Lemma bridge_collect_loop_NoDup (cfg : config) (num_mla_max : Z) :
  forall br_list ret0 num_mla l k ret num_mla' l' k',
    bridge_collect_loop cfg num_mla_max br_list ret0 num_mla l k
      = (ret, num_mla', l', k') ->
    NoDup l -> NoDup l'.
Proof.
  induction br_list as [|e rest IH]; intros r0 n l k ret n' l' k' E NL;
    cbn [bridge_collect_loop] in E.
  - inversion E; subst. exact NL.
  - destruct (n >=? num_mla_max).
    { inversion E; subst. exact NL. }
    cbv zeta in E.
    destruct (batadv_mcast_mla_is_duplicate
                (batadv_mcast_mla_br_addr_cpy cfg e) l) eqn:U.
    { eapply IH; eauto. }
    destruct (kmalloc k) as [[|] k1].
    + eapply IH; [exact E|]. constructor; [|exact NL].
      apply is_duplicate_not_In. exact U.
    + inversion E; subst. exact NL.
Qed.

Lemma local_collect_inv (dev : net_device) (l : list eth_addr)
  (num_mla_max : Z) (k : kernel) ret l' k' :
  batadv_mcast_mla_local_collect dev l num_mla_max k = (ret, l', k') ->
  exists kept,
    l' = kept ++ l /\
    Forall (fun a => In a (mc (local_collect_dev dev)) /\
              batadv_mcast_mla_has_unspecial_addr a (local_collect_dev dev)
              = true) kept /\
    hw_addr_live k' = hw_addr_live k + Z.of_nat (length kept) /\
    br_ip_live k' = br_ip_live k /\
    (ret = - ENOMEM \/ ret = Z.of_nat (length kept)) /\
    Z.of_nat (length kept) <= Z.max 0 num_mla_max.
Proof.
  unfold batadv_mcast_mla_local_collect. cbv zeta.
  destruct (local_collect_loop (local_collect_dev dev) num_mla_max
              (mc (local_collect_dev dev)) 0 l k)
    as [[[r n'] l1] k1] eqn:E.
  intros E'. inversion E'; subst; clear E'.
  destruct (local_collect_loop_inv _ _ _ _ _ _ _ _ _ _ E)
    as [kept [H1 [H2 [H3 [H4 [H5 [H6 H7]]]]]]].
  exists kept. repeat split; try assumption.
  - destruct H6 as [->| ->]; simpl; [right; lia | left; reflexivity].
  - destruct kept as [|x kept]; [simpl; lia|].
    assert (n' <= num_mla_max) by (apply H7; discriminate). lia.
Qed.

Lemma bridge_collect_inv (cfg : config) (dev : net_device)
  (l : list eth_addr) (num_mla_max : Z) (k : kernel) ret l' bl' k' :
  batadv_mcast_mla_bridge_collect cfg dev l num_mla_max k
    = (ret, l', bl', k') ->
  bl' = [] /\
  exists added,
    l' = added ++ l /\
    Forall (fun a =>
              In a (map (batadv_mcast_mla_br_addr_cpy cfg)
                        (snd (br_adjacent dev)))) added /\
    hw_addr_live k' = hw_addr_live k + Z.of_nat (length added) /\
    br_ip_live k' = br_ip_live k /\
    (ret < 0 \/ ret = Z.of_nat (length added)) /\
    Z.of_nat (length added) <= Z.max 0 num_mla_max /\
    (NoDup l -> NoDup l').
Proof.
  unfold batadv_mcast_mla_bridge_collect, br_multicast_list_adjacent.
  destruct (br_adjacent dev) as [r0 bl]. cbn [snd].
  set (k0 := Kernel _ _ _ _).
  destruct (r0 <? 0) eqn:R.
  - destruct (br_ip_list_free_spec bl k0) as [k2 [F [F1 [F2 _]]]].
    rewrite F, R. intros E. inversion E; subst; clear E.
    split; [reflexivity|]. exists []. subst k0. simpl in *.
    apply Z.ltb_lt in R.
    repeat split; auto; try lia.
  - destruct (bridge_collect_loop cfg num_mla_max bl r0 0 l k0)
      as [[[r n'] l1] k1] eqn:E.
    destruct (br_ip_list_free_spec bl k1) as [k2 [F [F1 [F2 _]]]].
    rewrite F. intros E'. inversion E'; subst; clear E'.
    split; [reflexivity|].
    pose proof (bridge_collect_loop_NoDup _ _ _ _ _ _ _ _ _ _ _ E) as ND.
    destruct (bridge_collect_loop_inv _ _ _ _ _ _ _ _ _ _ _ E)
      as [added [H1 [H2 [H3 [H4 [H5 [H6 H7]]]]]]].
    exists added. subst k0. simpl in *. apply Z.ltb_ge in R.
    repeat split; try assumption; try lia.
    + destruct H6 as [->| ->].
      * destruct (r0 <? 0) eqn:R'; [apply Z.ltb_lt in R'; lia|]. right; lia.
      * left. unfold ENOMEM. simpl. lia.
    + destruct added as [|x added]; [simpl; lia|].
      assert (n' <= num_mla_max) by (apply H7; discriminate). lia.
Qed.

(** ** The reconciler *)

Section Reconciler.
Context {table : Type} `{TranslationTable table}.

(* batadv_mcast_mla_tt_clean: the announced entries missing from mcast_list
   are removed from the table, in list order, and freed; the others stay. *)
Lemma tt_clean_loop_spec (mcast_list : list eth_addr) :
  forall (mla : list eth_addr) (t : table) (k : kernel),
  exists k',
    tt_clean_loop mla mcast_list t k =
      (filter (fun a => batadv_mcast_mla_is_duplicate a mcast_list) mla,
       fold_left (fun t a => batadv_tt_local_remove a t)
         (filter (fun a => negb (batadv_mcast_mla_is_duplicate a mcast_list))
                 mla) t,
       k') /\
    hw_addr_live k' = hw_addr_live k - Z.of_nat (length
      (filter (fun a => negb (batadv_mcast_mla_is_duplicate a mcast_list))
              mla)) /\
    br_ip_live k' = br_ip_live k /\
    kmalloc_oracle k' = kmalloc_oracle k /\ dmesg k' = dmesg k.
Proof.
  induction mla as [|e mla IH]; intros t k; cbn [tt_clean_loop filter].
  - exists k. simpl. repeat split; lia.
  - destruct (batadv_mcast_mla_is_duplicate e mcast_list); cbn [negb].
    + destruct (IH t k) as [k' [E R]]. exists k'. rewrite E. split; [|exact R].
      reflexivity.
    + destruct (IH (batadv_tt_local_remove e t) (kfree k))
        as [k' [E [R1 [R2 [R3 R4]]]]].
      exists k'. rewrite E. cbn [fold_left length]. simpl in *.
      repeat split; try assumption. lia.
Qed.

(* batadv_mcast_mla_tt_add: the entries of mcast_list that are not announced
   yet are added to the table and moved to the end of the announced list, in
   list order; an address is moved once. *)
Lemma tt_add_loop_spec :
  forall (mcast_list mla : list eth_addr) (t : table),
  exists added skipped,
    tt_add_loop mcast_list mla t =
      (skipped, mla ++ added,
       fold_left (fun t a => batadv_tt_local_add a t) added t) /\
    NoDup added /\
    (forall a, In a added <-> In a mcast_list /\ ~ In a mla) /\
    (length skipped + length added = length mcast_list)%nat.
Proof.
  induction mcast_list as [|e rest IH]; intros mla t; cbn [tt_add_loop].
  - exists [], []. rewrite app_nil_r. simpl.
    repeat split; try constructor; tauto.
  - destruct (batadv_mcast_mla_is_duplicate e mla) eqn:D.
    + destruct (IH mla t) as [added [skipped [E [ND [M L]]]]].
      exists added, (e :: skipped). rewrite E.
      apply is_duplicate_In in D.
      split; [reflexivity|]. split; [exact ND|]. split.
      * intros a. rewrite M. split; [intros [Hr Hn]; split; [right|]; tauto|].
        intros [[<-|Hr] Hn]; [contradiction | tauto].
      * simpl. lia.
    + destruct (IH (mla ++ [e]) (batadv_tt_local_add e t))
        as [added [skipped [E [ND [M L]]]]].
      exists (e :: added), skipped. rewrite E, <- app_assoc.
      apply is_duplicate_not_In in D.
      split; [reflexivity|]. split; [|split].
      * constructor; [|exact ND]. intros Hin. apply M in Hin.
        destruct Hin as [_ Hn]. apply Hn. apply in_or_app. right. left.
        reflexivity.
      * intros a. split.
        -- intros [<-|Hin]; [split; [left; reflexivity | exact D]|].
           apply M in Hin. destruct Hin as [Hr Hn]. split; [right; exact Hr|].
           intros Hm. apply Hn. apply in_or_app. left. exact Hm.
        -- intros [[<-|Hr] Hn]; [left; reflexivity|].
           destruct (eth_eqb e a) eqn:Q.
           ++ apply eth_eqb_eq in Q. left. exact Q.
           ++ apply eth_eqb_neq in Q. right. apply M. split; [exact Hr|].
              intros Hm. apply in_app_or in Hm.
              destruct Hm as [Hm|[Hm|[]]]; [contradiction | contradiction].
      * simpl. lia.
Qed.

(* The update: part of the cycle: clean, add, then free the local list. *)
Lemma tt_update_update_spec (bat_priv : batadv_priv table)
  (mcast_list : list eth_addr) (k : kernel) :
  let removed :=
    filter (fun a => negb (batadv_mcast_mla_is_duplicate a mcast_list))
           (mla_list bat_priv) in
  let kept :=
    filter (fun a => batadv_mcast_mla_is_duplicate a mcast_list)
           (mla_list bat_priv) in
  exists added k',
    tt_update_update bat_priv mcast_list k =
      (BatPriv (mcast_group_awareness bat_priv) (primary_if bat_priv)
         (kept ++ added)
         (fold_left (fun t a => batadv_tt_local_add a t) added
            (fold_left (fun t a => batadv_tt_local_remove a t) removed
               (tt bat_priv))),
       [], k') /\
    NoDup added /\
    (forall a, In a added <-> In a mcast_list /\ ~ In a (mla_list bat_priv)) /\
    (length added <= length mcast_list)%nat /\
    hw_addr_live k' =
      hw_addr_live k - Z.of_nat (length removed)
      - (Z.of_nat (length mcast_list) - Z.of_nat (length added)) /\
    br_ip_live k' = br_ip_live k /\
    kmalloc_oracle k' = kmalloc_oracle k /\ dmesg k' = dmesg k.
Proof.
  intros removed kept.
  unfold tt_update_update, batadv_mcast_mla_tt_clean, batadv_mcast_mla_tt_add,
    tt_update_out.
  destruct (tt_clean_loop_spec mcast_list (mla_list bat_priv) (tt bat_priv) k)
    as [k1 [E1 [C1 [C2 [C3 C4]]]]].
  rewrite E1. cbn [mla_list tt mcast_group_awareness primary_if].
  fold removed kept.
  destruct (tt_add_loop_spec mcast_list kept
              (fold_left (fun t a => batadv_tt_local_remove a t) removed
                         (tt bat_priv)))
    as [added [skipped [E2 [ND [M L]]]]].
  rewrite E2.
  destruct (collect_free_spec skipped k1) as [k2 [E3 [F1 [F2 [F3 F4]]]]].
  rewrite E3. exists added, k2.
  split; [reflexivity|]. split; [exact ND|]. split; [|repeat split].
  - intros a. rewrite M. subst kept. rewrite filter_In, is_duplicate_In.
    tauto.
  - lia.
  - fold removed in C1. lia.
  - congruence.
  - congruence.
  - congruence.
Qed.

End Reconciler.

Lemma filter_all_true {A} (f : A -> bool) (l : list A) :
  (forall a, In a l -> f a = true) -> filter f l = l.
Proof.
  induction l as [|x l IH]; intros F; simpl; [reflexivity|].
  rewrite (F x) by (left; reflexivity). f_equal. apply IH.
  intros a Ha. apply F. right. exact Ha.
Qed.

Lemma filter_all_false {A} (f : A -> bool) (l : list A) :
  (forall a, In a l -> f a = false) -> filter f l = [].
Proof.
  induction l as [|x l IH]; intros F; simpl; [reflexivity|].
  rewrite (F x) by (left; reflexivity). apply IH.
  intros a Ha. apply F. right. exact Ha.
Qed.

Lemma call_log_removes (l : list eth_addr) : forall (t : list tt_call),
  fold_left (fun t a => batadv_tt_local_remove a t) l t
  = t ++ map Tt_local_remove l.
Proof.
  induction l as [|a l IH]; intros t; simpl.
  - symmetry. apply app_nil_r.
  - rewrite IH, <- app_assoc. reflexivity.
Qed.

Lemma call_log_adds (l : list eth_addr) : forall (t : list tt_call),
  fold_left (fun t a => batadv_tt_local_add a t) l t
  = t ++ map Tt_local_add l.
Proof.
  induction l as [|a l IH]; intros t; simpl.
  - symmetry. apply app_nil_r.
  - rewrite IH, <- app_assoc. reflexivity.
Qed.

(* After the update: part the announced list holds the addresses of
   mcast_list and no other. *)
Lemma reconciled_addresses (prev cand added : list eth_addr) :
  (forall a, In a added <-> In a cand /\ ~ In a prev) ->
  forall a,
    In a (filter (fun a => batadv_mcast_mla_is_duplicate a cand) prev
          ++ added) <-> In a cand.
Proof.
  intros M a. rewrite in_app_iff, filter_In, is_duplicate_In, M.
  destruct (batadv_mcast_mla_is_duplicate a prev) eqn:D.
  - apply is_duplicate_In in D. tauto.
  - apply is_duplicate_not_In in D. tauto.
Qed.

(** C2.  Reconciliation, read on the log of the calls made on the table:
    first one remove for each announced entry that is not in the candidate
    list, then one add for each address of the candidate list that is not
    announced; an address in both lists gets neither call; afterwards the
    announced list holds exactly the addresses of the candidate list, and the
    local candidate list is empty. *)
Theorem reconcile_removals_before_additions
  (bat_priv : batadv_priv (list tt_call)) (mcast_list : list eth_addr)
  (k : kernel) :
  exists removed added k',
    tt_update_update bat_priv mcast_list k =
      (BatPriv (mcast_group_awareness bat_priv) (primary_if bat_priv)
         (filter (fun a => batadv_mcast_mla_is_duplicate a mcast_list)
                 (mla_list bat_priv) ++ added)
         (tt bat_priv ++ map Tt_local_remove removed
                      ++ map Tt_local_add added),
       [], k') /\
    removed =
      filter (fun a => negb (batadv_mcast_mla_is_duplicate a mcast_list))
             (mla_list bat_priv) /\
    (forall a, In a removed <->
               In a (mla_list bat_priv) /\ ~ In a mcast_list) /\
    (NoDup (mla_list bat_priv) -> NoDup removed) /\
    NoDup added /\
    (forall a, In a added <->
               In a mcast_list /\ ~ In a (mla_list bat_priv)) /\
    (forall a, In a (mla_list bat_priv) -> In a mcast_list ->
               ~ In a removed /\ ~ In a added) /\
    (forall a,
       In a (filter (fun a => batadv_mcast_mla_is_duplicate a mcast_list)
                    (mla_list bat_priv) ++ added) <-> In a mcast_list).
Proof.
  destruct (tt_update_update_spec bat_priv mcast_list k)
    as [added [k' [E [ND [M _]]]]].
  exists (filter (fun a => negb (batadv_mcast_mla_is_duplicate a mcast_list))
                 (mla_list bat_priv)), added, k'.
  assert (R : forall a,
    In a (filter (fun a => negb (batadv_mcast_mla_is_duplicate a mcast_list))
                 (mla_list bat_priv)) <->
    In a (mla_list bat_priv) /\ ~ In a mcast_list).
  { intros a. rewrite filter_In, negb_true_iff, is_duplicate_not_In. tauto. }
  split; [|split; [reflexivity|]].
  { rewrite E, call_log_adds, call_log_removes, <- app_assoc. reflexivity. }
  split; [exact R|]. split; [apply NoDup_filter|].
  split; [exact ND|]. split; [exact M|]. split.
  - intros a Hp Hc. rewrite R, M. tauto.
  - apply reconciled_addresses. exact M.
Qed.

Lemma reconcile_removals_before_additions_witness :
  exists removed added k',
    tt_update_update (priv_of dev_plain 1 [mac_A; mac_B]) [mac_B; mac_C]
                     kernel0
    = (BatPriv 1 (Some (HardIface dev_plain)) ([mac_B] ++ added)
         ([] ++ map Tt_local_remove removed ++ map Tt_local_add added),
       [], k') /\
    removed = [mac_A] /\ NoDup removed /\ NoDup added /\ In mac_C added /\
    ~ In mac_B added.
Proof.
  destruct (reconcile_removals_before_additions
              (priv_of dev_plain 1 [mac_A; mac_B]) [mac_B; mac_C] kernel0)
    as [removed [added [k' [E [R [Rm [NDr [NDa [M _]]]]]]]]].
  exists removed, added, k'.
  split; [exact E|]. split; [rewrite R; reflexivity|].
  split.
  { apply NDr. simpl. constructor.
    - intros [Q|[]]. discriminate Q.
    - constructor; [intros [] | constructor]. }
  split; [exact NDa|]. split.
  - apply M. simpl. split; [auto|].
    intros [Q|[Q|[]]]; discriminate Q.
  - intros Q. apply M in Q. apply (proj2 Q). simpl. auto.
Defined.

(** The scenario of the design document: previous = {A, B} and
    candidate = {B, C} give remove(A), then add(C), and {B, C}. *)
Example reconcile_scenario :
  fst (fst (tt_update_update (priv_of dev_plain 1 [mac_A; mac_B])
                             [mac_B; mac_C] kernel0))
  = BatPriv 1 (Some (HardIface dev_plain)) [mac_B; mac_C]
            [Tt_local_remove mac_A; Tt_local_add mac_C].
Proof. reflexivity. Qed.

(* Reconciling a second time against the same candidate list changes
   neither the announced list nor the table, whatever the table is. *)
Lemma tt_update_update_idem {table : Type} `{TranslationTable table}
  (bat_priv : batadv_priv table) (mcast_list : list eth_addr)
  (k k2 : kernel) :
  fst (fst (tt_update_update
              (fst (fst (tt_update_update bat_priv mcast_list k)))
              mcast_list k2))
  = fst (fst (tt_update_update bat_priv mcast_list k)).
Proof.
  destruct (tt_update_update_spec bat_priv mcast_list k)
    as [added [k' [E [ND [M _]]]]].
  rewrite E. cbn [fst].
  match goal with
  | |- context [tt_update_update ?b _ _] => remember b as bp1 eqn:Ebp1
  end.
  destruct (tt_update_update_spec bp1 mcast_list k2)
    as [added2 [k2' [E2 [ND2 [M2 _]]]]].
  rewrite E2. cbn [fst].
  assert (In1 : forall a, In a (mla_list bp1) <-> In a mcast_list).
  { rewrite Ebp1. cbn [mla_list]. apply reconciled_addresses. exact M. }
  clear Ebp1 E.
  assert (A2 : added2 = []).
  { destruct added2 as [|x l]; [reflexivity|]. exfalso.
    destruct (proj1 (M2 x) (or_introl eq_refl)) as [Hc Hn].
    apply Hn, In1, Hc. }
  rewrite A2.
  rewrite (filter_all_true _ (mla_list bp1)),
          (filter_all_false _ (mla_list bp1)), app_nil_r.
  - destruct bp1. reflexivity.
  - intros a Ha. apply negb_false_iff, is_duplicate_In, In1. exact Ha.
  - intros a Ha. apply is_duplicate_In, In1. exact Ha.
Qed.

(** C9.  Running the reconciler a second time with the same candidate list
    leaves the whole [batadv_priv] state as the first run left it: the
    announced list, and the table whatever its implementation is; on the call
    log in particular, the second run adds no call. *)
Theorem reconcile_twice_changes_nothing :
  (forall (table : Type) (TT : TranslationTable table)
          (bat_priv : batadv_priv table) (mcast_list : list eth_addr)
          (k k2 : kernel),
     let first := fst (fst (tt_update_update bat_priv mcast_list k)) in
     let second := fst (fst (tt_update_update first mcast_list k2)) in
     mla_list second = mla_list first /\ tt second = tt first /\
     second = first) /\
  (forall (bat_priv : batadv_priv (list tt_call))
          (mcast_list : list eth_addr) (k k2 : kernel),
     let first := fst (fst (tt_update_update bat_priv mcast_list k)) in
     let second := fst (fst (tt_update_update first mcast_list k2)) in
     exists calls, tt second = tt first ++ calls /\ calls = []).
Proof.
  split.
  - intros table TT bat_priv mcast_list k k2 first second.
    assert (E : second = first) by apply tt_update_update_idem.
    rewrite E. auto.
  - intros bat_priv mcast_list k k2 first second.
    assert (E : second = first) by apply tt_update_update_idem.
    exists []. rewrite E, app_nil_r. auto.
Qed.

Example reconcile_twice_scenario :
  let first := fst (fst (tt_update_update (priv_of dev_plain 1 [mac_A; mac_B])
                                          [mac_B; mac_C] kernel0)) in
  tt first = [Tt_local_remove mac_A; Tt_local_add mac_C] /\
  tt (fst (fst (tt_update_update first [mac_B; mac_C] kernel0)))
  = [Tt_local_remove mac_A; Tt_local_add mac_C].
Proof. split; reflexivity. Qed.

(** ** The cycle *)

Section Cycle.
Context {table : Type} `{TranslationTable table}.

Lemma tt_update_out_spec (bat_priv : batadv_priv table)
  (l : list eth_addr) (k : kernel) :
  exists k', tt_update_out bat_priv l k = (bat_priv, [], k') /\
    hw_addr_live k' = hw_addr_live k - Z.of_nat (length l) /\
    br_ip_live k' = br_ip_live k.
Proof.
  unfold tt_update_out.
  destruct (collect_free_spec l k) as [k' [E [F1 [F2 _]]]].
  rewrite E. exists k'. auto.
Qed.

(* A failing local collector: nothing is reconciled, and the entries it
   left in the list are freed at out:. *)
Lemma tt_update_local_failure (cfg : config) (num_mla : Z)
  (bat_priv : batadv_priv table) (k : kernel) primary ret1 l1 k1 :
  primary_if bat_priv = Some primary ->
  mcast_group_awareness bat_priv <> 0 ->
  batadv_mcast_mla_local_collect (soft_iface primary) [] BATADV_MLA_MAX k
    = (ret1, l1, k1) ->
  ret1 < 0 ->
  exists k',
    batadv_mcast_mla_tt_update cfg num_mla bat_priv k = (bat_priv, [], k') /\
    hw_addr_live k' = hw_addr_live k /\ br_ip_live k' = br_ip_live k.
Proof.
  intros P A L R. unfold batadv_mcast_mla_tt_update.
  rewrite P. apply Z.eqb_neq in A. rewrite A. cbv zeta. rewrite L.
  apply Z.ltb_lt in R. rewrite R.
  destruct (tt_update_out_spec bat_priv l1 k1) as [k' [E [F1 F2]]].
  exists k'. split; [exact E|].
  destruct (local_collect_inv _ _ _ _ _ _ _ L) as [kept [-> [_ [L1 [L2 _]]]]].
  rewrite app_nil_r in F1. split; lia.
Qed.

(* A failing bridge collector: the same. *)
Lemma tt_update_bridge_failure (cfg : config) (num_mla : Z)
  (bat_priv : batadv_priv table) (k : kernel) primary ret1 l1 k1
  ret2 l2 bl2 k2 :
  primary_if bat_priv = Some primary ->
  mcast_group_awareness bat_priv <> 0 ->
  batadv_mcast_mla_local_collect (soft_iface primary) [] BATADV_MLA_MAX k
    = (ret1, l1, k1) ->
  0 <= ret1 ->
  CONFIG_BATMAN_ADV_MCAST_BRIDGE_SNOOP cfg = true ->
  batadv_mcast_mla_bridge_collect cfg (soft_iface primary) l1
    (BATADV_MLA_MAX - num_mla) k1 = (ret2, l2, bl2, k2) ->
  ret2 < 0 ->
  exists k',
    batadv_mcast_mla_tt_update cfg num_mla bat_priv k = (bat_priv, [], k') /\
    hw_addr_live k' = hw_addr_live k /\ br_ip_live k' = br_ip_live k.
Proof.
  intros P A L R1 C B R2. unfold batadv_mcast_mla_tt_update.
  rewrite P. apply Z.eqb_neq in A. rewrite A. cbv zeta. rewrite L.
  apply Z.ltb_ge in R1. rewrite R1, C, B.
  apply Z.ltb_lt in R2. rewrite R2.
  destruct (tt_update_out_spec bat_priv l2 k2) as [k' [E [F1 F2]]].
  exists k'. split; [exact E|].
  destruct (local_collect_inv _ _ _ _ _ _ _ L) as [kept [-> [_ [L1 [L2 _]]]]].
  destruct (bridge_collect_inv _ _ _ _ _ _ _ _ _ B)
    as [_ [added [-> [_ [B1 [B2 _]]]]]].
  rewrite !length_app in F1. simpl in F1. split; lia.
Qed.

End Cycle.

(** C1.  When the local collector or the bridge collector of a cycle
    returns an allocation error, [batadv_mcast_mla_tt_update] leaves
    [bat_priv] as it was, the announced list and the translation table
    included (whatever the table is): neither tt_clean nor tt_add runs.  The
    entries collected before the failure are all freed. *)
Theorem tt_update_aborts_on_collect_failure
  {table : Type} `{TranslationTable table} (cfg : config) (num_mla : Z)
  (bat_priv : batadv_priv table) (k : kernel)
  (primary : batadv_hard_iface) (ret1 : Z) (l1 : list eth_addr) (k1 : kernel) :
  primary_if bat_priv = Some primary ->
  mcast_group_awareness bat_priv <> 0 ->
  batadv_mcast_mla_local_collect (soft_iface primary) [] BATADV_MLA_MAX k
    = (ret1, l1, k1) ->
  (ret1 < 0 \/
   (CONFIG_BATMAN_ADV_MCAST_BRIDGE_SNOOP cfg = true /\
    fst (fst (fst (batadv_mcast_mla_bridge_collect cfg (soft_iface primary)
                     l1 (BATADV_MLA_MAX - num_mla) k1))) < 0)) ->
  exists k',
    batadv_mcast_mla_tt_update cfg num_mla bat_priv k = (bat_priv, [], k') /\
    hw_addr_live k' = hw_addr_live k /\ br_ip_live k' = br_ip_live k.
Proof.
  intros P A L F.
  destruct (Z_lt_dec ret1 0) as [R|R].
  - eapply tt_update_local_failure; eauto.
  - destruct F as [F|[C F]]; [contradiction|].
    destruct (batadv_mcast_mla_bridge_collect cfg (soft_iface primary) l1
                (BATADV_MLA_MAX - num_mla) k1) as [[[ret2 l2] bl2] k2] eqn:B.
    cbn [fst] in F.
    eapply tt_update_bridge_failure; eauto. lia.
Qed.

Lemma tt_update_aborts_on_collect_failure_witness :
  (exists k',
     batadv_mcast_mla_tt_update (Config true false) 0
       (priv_of dev_plain 1 [mac_C]) (Kernel [true; false] 0 0 [])
     = (priv_of dev_plain 1 [mac_C], [], k') /\
     hw_addr_live k' = 0 /\ br_ip_live k' = 0) /\
  (exists k',
     batadv_mcast_mla_tt_update (Config true true) 3
       (priv_of (dev_bridged (0, [snoop_C; snoop_6])) 1 [mac_C])
       (Kernel [true; true; true; true; false] 0 0 [])
     = (priv_of (dev_bridged (0, [snoop_C; snoop_6])) 1 [mac_C], [], k') /\
     hw_addr_live k' = 0 /\ br_ip_live k' = 0).
Proof.
  split.
  - eapply (tt_update_aborts_on_collect_failure (Config true false) 0
              (priv_of dev_plain 1 [mac_C]) (Kernel [true; false] 0 0 [])).
    + reflexivity.
    + discriminate.
    + reflexivity.
    + left. reflexivity.
  - eapply (tt_update_aborts_on_collect_failure (Config true true) 3
              (priv_of (dev_bridged (0, [snoop_C; snoop_6])) 1 [mac_C])
              (Kernel [true; true; true; true; false] 0 0 [])).
    + reflexivity.
    + discriminate.
    + reflexivity.
    + right. split; reflexivity.
Defined.

(** C5.  With the multicast optimization switched off (and a primary
    interface selected) the cycle reconciles against the empty candidate
    list: every announced entry is removed from the table, in list order, and
    the announced list ends empty.  Without a primary interface the cycle
    changes nothing at all. *)
Theorem tt_update_disabled_or_detached
  {table : Type} `{TranslationTable table} (cfg : config) (num_mla : Z)
  (bat_priv : batadv_priv table) (k : kernel) :
  (primary_if bat_priv = None ->
   batadv_mcast_mla_tt_update cfg num_mla bat_priv k = (bat_priv, [], k)) /\
  (primary_if bat_priv <> None -> mcast_group_awareness bat_priv = 0 ->
   batadv_mcast_mla_tt_update cfg num_mla bat_priv k
   = tt_update_update bat_priv [] k /\
   exists k',
     batadv_mcast_mla_tt_update cfg num_mla bat_priv k =
       (BatPriv 0 (primary_if bat_priv) []
          (fold_left (fun t a => batadv_tt_local_remove a t)
                     (mla_list bat_priv) (tt bat_priv)),
        [], k') /\
     hw_addr_live k' = hw_addr_live k - Z.of_nat (length (mla_list bat_priv)) /\
     kmalloc_oracle k' = kmalloc_oracle k /\ dmesg k' = dmesg k).
Proof.
  split.
  - intros P. unfold batadv_mcast_mla_tt_update. rewrite P. reflexivity.
  - intros P A.
    assert (E : batadv_mcast_mla_tt_update cfg num_mla bat_priv k
                = tt_update_update bat_priv [] k).
    { unfold batadv_mcast_mla_tt_update.
      destruct (primary_if bat_priv); [|congruence].
      rewrite A. reflexivity. }
    split; [exact E|]. rewrite E.
    destruct (tt_update_update_spec bat_priv [] k)
      as [added [k' [U [_ [M [_ [L [_ [O D]]]]]]]]].
    assert (A0 : added = []).
    { destruct added as [|x l]; [reflexivity|].
      destruct (proj1 (M x) (or_introl eq_refl)) as [[] _]. }
    subst added. rewrite U. exists k'.
    assert (Fr : filter (fun a => negb (batadv_mcast_mla_is_duplicate a []))
                        (mla_list bat_priv) = mla_list bat_priv)
      by (apply filter_all_true; reflexivity).
    assert (Fk : filter (fun a => batadv_mcast_mla_is_duplicate a [])
                        (mla_list bat_priv) = [])
      by (apply filter_all_false; reflexivity).
    rewrite Fr in *. rewrite Fk. rewrite A. simpl in *.
    repeat split; try assumption. lia.
Qed.

Lemma tt_update_disabled_or_detached_witness :
  batadv_mcast_mla_tt_update (Config true true) 0
    (BatPriv 1 None [mac_A; mac_B] [Tt_local_add mac_A; Tt_local_add mac_B])
    kernel0
  = (BatPriv 1 None [mac_A; mac_B] [Tt_local_add mac_A; Tt_local_add mac_B],
     [], kernel0) /\
  exists k',
    batadv_mcast_mla_tt_update (Config true true) 0
      (priv_of dev_plain 0 [mac_A; mac_B]) (Kernel [] 2 0 [])
    = (BatPriv 0 (Some (HardIface dev_plain)) []
         [Tt_local_remove mac_A; Tt_local_remove mac_B], [], k') /\
    hw_addr_live k' = 0.
Proof.
  split.
  - apply (proj1 (tt_update_disabled_or_detached (Config true true) 0
       (BatPriv 1 None [mac_A; mac_B] [Tt_local_add mac_A; Tt_local_add mac_B])
       kernel0)).
    reflexivity.
  - destruct (proj2 (tt_update_disabled_or_detached (Config true true) 0
       (priv_of dev_plain 0 [mac_A; mac_B]) (Kernel [] 2 0 [])))
      as [_ [k' [E [L _]]]].
    + discriminate.
    + reflexivity.
    + exists k'. split; [exact E | exact L].
Defined.

(** ** Allocation failures inside the collectors *)



(** ** Uniqueness of addresses *)

Lemma tt_update_update_NoDup {table : Type} `{TranslationTable table}
  (bat_priv : batadv_priv table) (mcast_list : list eth_addr) (k : kernel) :
  NoDup (mla_list bat_priv) ->
  NoDup (mla_list (fst (fst (tt_update_update bat_priv mcast_list k)))).
Proof.
  intros ND.
  destruct (tt_update_update_spec bat_priv mcast_list k)
    as [added [k' [E [NA [M _]]]]].
  rewrite E. cbn [fst mla_list].
  apply NoDup_app; [apply NoDup_filter; exact ND | exact NA |].
  intros a Ha Hb. apply filter_In in Ha. apply M in Hb. tauto.
Qed.

(* The cycle either returns through out: alone or runs the update: part on
   some candidate list. *)
Lemma tt_update_cases {table : Type} `{TranslationTable table}
  (cfg : config) (num_mla : Z) (bat_priv : batadv_priv table) (k : kernel) :
  (exists k',
     batadv_mcast_mla_tt_update cfg num_mla bat_priv k = (bat_priv, [], k')) \/
  (exists mcast_list k0,
     batadv_mcast_mla_tt_update cfg num_mla bat_priv k
     = tt_update_update bat_priv mcast_list k0).
Proof.
  unfold batadv_mcast_mla_tt_update.
  destruct (primary_if bat_priv) as [p|].
  2:{ left. exists k. reflexivity. }
  destruct (mcast_group_awareness bat_priv =? 0).
  { right. exists [], k. reflexivity. }
  cbv zeta.
  destruct (batadv_mcast_mla_local_collect (soft_iface p) [] BATADV_MLA_MAX k)
    as [[ret1 l1] k1].
  destruct (ret1 <? 0).
  { left. destruct (tt_update_out_spec bat_priv l1 k1) as [k' [E _]].
    exists k'. exact E. }
  destruct (CONFIG_BATMAN_ADV_MCAST_BRIDGE_SNOOP cfg).
  2:{ right. exists l1, k1. reflexivity. }
  destruct (batadv_mcast_mla_bridge_collect cfg (soft_iface p) l1
              (BATADV_MLA_MAX - num_mla) k1) as [[[ret2 l2] bl2] k2].
  destruct (ret2 <? 0).
  { left. destruct (tt_update_out_spec bat_priv l2 k2) as [k' [E _]].
    exists k'. exact E. }
  right. exists l2, k2. reflexivity.
Qed.

(** C10, as stated, fails: the local collector has no duplicate test, so a
    hardware list that holds an address twice gives a candidate list that
    holds it twice. *)
Lemma local_collect_repeats_repeated_entry :
  snd (fst (batadv_mcast_mla_local_collect dev_twice [] BATADV_MLA_MAX
              kernel0)) = [mac_A; mac_A] /\
  ~ NoDup (snd (fst (batadv_mcast_mla_local_collect dev_twice []
                       BATADV_MLA_MAX kernel0))).
Proof.
  split; [reflexivity|].
  change (~ NoDup [mac_A; mac_A]). intros ND.
  inversion ND as [|? ? Hn _]; subst. apply Hn. left. reflexivity.
Qed.

(** C10, amended.  Local collection builds a list without repeated address
    provided the hardware list it reads has none (it makes no duplicate test
    of its own); bridge collection keeps a list without repeated address so,
    whatever the bridge reports; and tt_clean, tt_add and the whole cycle
    keep the announced list without repeated address, whatever the
    candidate list is. *)
Theorem insertions_preserve_uniqueness
  {table : Type} `{TranslationTable table}
  (cfg : config) (dev : net_device) (l : list eth_addr) (num_mla_max : Z)
  (k : kernel) (num_mla : Z) (bat_priv : batadv_priv table)
  (mcast_list : list eth_addr) :
  (NoDup (mc (local_collect_dev dev)) ->
   NoDup (snd (fst (batadv_mcast_mla_local_collect dev [] num_mla_max k)))) /\
  (NoDup l ->
   NoDup (snd (fst (fst
     (batadv_mcast_mla_bridge_collect cfg dev l num_mla_max k))))) /\
  (NoDup (mla_list bat_priv) ->
   NoDup (mla_list (fst (batadv_mcast_mla_tt_clean bat_priv mcast_list k))) /\
   NoDup (mla_list (fst (batadv_mcast_mla_tt_add bat_priv mcast_list))) /\
   NoDup (mla_list (fst (fst
     (batadv_mcast_mla_tt_update cfg num_mla bat_priv k))))).
Proof.
  split; [|split].
  - intros ND. unfold batadv_mcast_mla_local_collect. cbv zeta.
    destruct (local_collect_loop (local_collect_dev dev) num_mla_max
                (mc (local_collect_dev dev)) 0 [] k)
      as [[[r n'] l1] k1] eqn:E.
    cbn [fst snd].
    eapply local_collect_loop_NoDup; [exact E | exact ND | constructor |].
    intros a _ [].
  - intros ND.
    destruct (batadv_mcast_mla_bridge_collect cfg dev l num_mla_max k)
      as [[[ret l'] bl'] k'] eqn:E.
    cbn [fst snd].
    destruct (bridge_collect_inv _ _ _ _ _ _ _ _ _ E)
      as [_ [added [_ [_ [_ [_ [_ [_ N]]]]]]]].
    apply N, ND.
  - intros ND. split; [|split].
    + unfold batadv_mcast_mla_tt_clean.
      destruct (tt_clean_loop_spec mcast_list (mla_list bat_priv)
                  (tt bat_priv) k) as [k' [E _]].
      rewrite E. cbn [fst mla_list]. apply NoDup_filter, ND.
    + unfold batadv_mcast_mla_tt_add.
      destruct (tt_add_loop_spec mcast_list (mla_list bat_priv) (tt bat_priv))
        as [added [skipped [E [NA [M _]]]]].
      rewrite E. cbn [fst mla_list].
      apply NoDup_app; [exact ND | exact NA |].
      intros a Ha Hb. apply M in Hb. tauto.
    + destruct (tt_update_cases cfg num_mla bat_priv k)
        as [[k' E]|[cand [k0 E]]]; rewrite E.
      * exact ND.
      * apply tt_update_update_NoDup, ND.
Qed.

Lemma insertions_preserve_uniqueness_witness :
  NoDup (snd (fst (batadv_mcast_mla_local_collect dev_plain []
                     BATADV_MLA_MAX kernel0))) /\
  NoDup (snd (fst (fst
    (batadv_mcast_mla_bridge_collect (Config true true)
       (dev_bridged (0, [snoop_C; snoop_C])) [mac_A] BATADV_MLA_MAX
       kernel0)))) /\
  NoDup (mla_list (fst (fst
    (batadv_mcast_mla_tt_update (Config true true) 0
       (priv_of dev_twice 1 [mac_A]) kernel0)))).
Proof.
  assert (N1 : NoDup [mac_A]) by (constructor; [intros [] | constructor]).
  assert (N5 : NoDup (mc (local_collect_dev dev_plain))).
  { simpl. repeat constructor; simpl; intuition discriminate. }
  pose proof (insertions_preserve_uniqueness (Config true true) dev_plain
                [mac_A] BATADV_MLA_MAX kernel0 0
                (priv_of dev_twice 1 [mac_A]) [mac_A; mac_A]) as [T1 _].
  pose proof (insertions_preserve_uniqueness (Config true true)
                (dev_bridged (0, [snoop_C; snoop_C]))
                [mac_A] BATADV_MLA_MAX kernel0 0
                (priv_of dev_twice 1 [mac_A]) [mac_A; mac_A]) as [_ [T2 T3]].
  split; [exact (T1 N5)|]. split; [exact (T2 N1)|].
  exact (proj2 (proj2 (T3 N1))).
Defined.

(** ** Snooped entries of an unknown protocol family *)

Lemma br_addr_cpy_unknown (cfg : config) (e : br_ip) :
  proto e <> ETH_P_IP -> proto e <> ETH_P_IPV6 ->
  batadv_mcast_mla_br_addr_cpy cfg e = eth_zero.
Proof.
  intros N4 N6. unfold batadv_mcast_mla_br_addr_cpy.
  apply Z.eqb_neq in N4, N6. rewrite N4, N6, andb_false_r. reflexivity.
Qed.

(** C8, as stated, fails: a snooped entry of an unknown family is mapped to
    00:00:00:00:00:00, and this address is stored in the candidate list and
    added to the translation table like any other. *)
Lemma unknown_family_is_announced :
  batadv_mcast_mla_br_addr_cpy (Config true true) snoop_unknown = eth_zero /\
  snd (fst (fst
    (batadv_mcast_mla_bridge_collect (Config true true)
       (dev_bridged (0, [snoop_unknown])) [mac_A] BATADV_MLA_MAX kernel0)))
  = [eth_zero; mac_A] /\
  tt (fst (fst
    (batadv_mcast_mla_tt_update (Config true true) 3
       (priv_of (dev_bridged (0, [snoop_unknown])) 1 [mac_A; mac_B; mac_6])
       kernel0)))
  = [Tt_local_add eth_zero].
Proof. repeat split. Qed.

(** ** The capacity bound *)


(** The scenario of the design document: of 260 announceable local
    addresses the local collector keeps 255, warns, and returns no error. *)
Example local_collect_truncates_at_capacity :
  let '(ret, l, k) :=
    batadv_mcast_mla_local_collect (dev_many 260 (0, [])) [] BATADV_MLA_MAX
                                   kernel0 in
  ret = 255 /\ length l = 255%nat /\ dmesg k = [Too_many_local 255].
Proof. vm_compute. repeat split. Qed.

(** * Further properties of the code *)

(** ** The size of the announcements *)

(** X1.  For a number of announcements within the capacity,
    [batadv_mcast_mla_len] is six times the number, computed without
    wrap-around, and at most 1530 octets. *)
Theorem mla_len_within_capacity (num_mla : Z) :
  0 <= num_mla <= BATADV_MLA_MAX ->
  batadv_mcast_mla_len num_mla = 6 * num_mla /\
  0 <= batadv_mcast_mla_len num_mla <= 1530.
Proof.
  unfold batadv_mcast_mla_len, wrap_int, ETH_ALEN, BATADV_MLA_MAX, UINT8_MAX.
  intros R.
  change (2 ^ 31) with 2147483648. change (2 ^ 32) with 4294967296.
  rewrite Z.mod_small by lia. lia.
Qed.

Lemma mla_len_within_capacity_witness :
  batadv_mcast_mla_len 255 = 6 * 255 /\
  0 <= batadv_mcast_mla_len 255 <= 1530.
Proof.
  apply (mla_len_within_capacity 255). unfold BATADV_MLA_MAX, UINT8_MAX. lia.
Defined.

(** ** Conversion of snooped addresses *)

Lemma land_low_bits (x : Z) (n : Z) :
  0 <= n -> Z.land x (Z.ones n) = x mod 2 ^ n.
Proof. intros Hn. apply Z.land_ones. exact Hn. Qed.

Lemma ip_eth_mc_map_octets (a b c d : Z) :
  0 <= a < 256 -> 0 <= b < 256 -> 0 <= c < 256 -> 0 <= d < 256 ->
  ip_eth_mc_map (ip4 a b c d) = EthAddr 0x01 0x00 0x5e (Z.land b 0x7F) c d.
Proof.
  intros Ha Hb Hc Hd. unfold ip_eth_mc_map, ip4.
  change 0x7F with (Z.ones 7). change 0xFF with (Z.ones 8).
  rewrite !land_low_bits, !Z.shiftr_div_pow2 by lia.
  change (2 ^ 24) with 16777216. change (2 ^ 16) with 65536.
  change (2 ^ 8) with 256. change (2 ^ 7) with 128.
  f_equal.
  - replace ((a * 16777216 + b * 65536 + c * 256 + d) / 65536)
      with (a * 256 + b) by (apply Z.div_unique_pos with (c * 256 + d); lia).
    replace (a * 256 + b) with (b + (2 * a) * 128) by lia.
    apply Z.mod_add. lia.
  - replace ((a * 16777216 + b * 65536 + c * 256 + d) / 256)
      with (c + (a * 256 + b) * 256)
      by (apply Z.div_unique_pos with d; lia).
    rewrite Z.mod_add by lia. apply Z.mod_small. lia.
  - replace (a * 16777216 + b * 65536 + c * 256 + d)
      with (d + (a * 65536 + b * 256 + c) * 256) by lia.
    rewrite Z.mod_add by lia. apply Z.mod_small. lia.
Qed.

(** X2.  The conversion of a snooped group address gives the MAC address
    that the kernel mapping used by the classifier gives for the same group:
    for an IPv4 entry a.b.c.d it is [ip_eth_mc_map], and for an IPv6 entry,
    when IPv6 is configured, [ipv6_eth_mc_map].  A group joined locally and
    snooped by the bridge therefore yields one address, not two. *)
Theorem br_addr_cpy_agrees_with_kernel_maps (cfg : config)
  (a b c d : Z) (rest : list Z) (g6 : in6_addr) :
  0 <= a < 256 -> 0 <= b < 256 -> 0 <= c < 256 -> 0 <= d < 256 ->
  batadv_mcast_mla_br_addr_cpy cfg (BrIp (a :: b :: c :: d :: rest) ETH_P_IP)
  = ip_eth_mc_map (ip4 a b c d) /\
  (CONFIG_IPV6 cfg = true ->
   batadv_mcast_mla_br_addr_cpy cfg (BrIp g6 ETH_P_IPV6)
   = ipv6_eth_mc_map g6).
Proof.
  intros Ha Hb Hc Hd. split.
  - rewrite ip_eth_mc_map_octets by assumption. reflexivity.
  - intros C. unfold batadv_mcast_mla_br_addr_cpy. cbn [proto u].
    rewrite C. reflexivity.
Qed.

Lemma br_addr_cpy_agrees_with_kernel_maps_witness :
  batadv_mcast_mla_br_addr_cpy (Config true true) snoop_C
  = ip_eth_mc_map (ip4 224 1 2 5) /\
  batadv_mcast_mla_br_addr_cpy (Config true true)
    (BrIp ip6_transient ETH_P_IPV6)
  = ipv6_eth_mc_map ip6_transient.
Proof.
  destruct (br_addr_cpy_agrees_with_kernel_maps (Config true true)
              224 1 2 5 [] ip6_transient) as [E4 E6]; try lia.
  split; [exact E4 | exact (E6 eq_refl)].
Defined.

(** X3.  Whatever the snooped entry holds, its conversion is an IPv4
    multicast MAC address (01:00:5e and a fourth octet below 128), an IPv6
    multicast MAC address (33:33), or the all-zero address; without IPv6
    configured an IPv6 entry gives the all-zero address. *)
Theorem br_addr_cpy_shape (cfg : config) (src : br_ip) :
  let m := batadv_mcast_mla_br_addr_cpy cfg src in
  ((proto src = ETH_P_IP /\
    o0 m = 0x01 /\ o1 m = 0x00 /\ o2 m = 0x5e /\ 0 <= o3 m < 128) \/
   (proto src = ETH_P_IPV6 /\ CONFIG_IPV6 cfg = true /\
    o0 m = 0x33 /\ o1 m = 0x33) \/
   m = eth_zero) /\
  (CONFIG_IPV6 cfg = false -> proto src = ETH_P_IPV6 -> m = eth_zero).
Proof.
  unfold batadv_mcast_mla_br_addr_cpy. cbv zeta. split.
  - destruct (proto src =? ETH_P_IP) eqn:E4.
    + left. apply Z.eqb_eq in E4. cbn [o0 o1 o2 o3].
      repeat split; try assumption.
      * change 0x7F with (Z.ones 7). rewrite land_low_bits by lia.
        apply Z.mod_pos_bound. reflexivity.
      * change 0x7F with (Z.ones 7). rewrite land_low_bits by lia.
        apply Z.mod_pos_bound. reflexivity.
    + destruct (CONFIG_IPV6 cfg) eqn:C; cbn [andb].
      * destruct (proto src =? ETH_P_IPV6) eqn:E6; [|right; right; reflexivity].
        right. left. apply Z.eqb_eq in E6. cbn [o0 o1]. auto.
      * right. right. reflexivity.
  - intros C P. rewrite P, C. reflexivity.
Qed.

Lemma br_addr_cpy_shape_witness :
  batadv_mcast_mla_br_addr_cpy (Config false true) snoop_6 = eth_zero.
Proof.
  apply (proj2 (br_addr_cpy_shape (Config false true) snoop_6));
    reflexivity.
Defined.

(** ** The classifier, seen from the groups *)

(** X4.  The MAC address of every IPv4 group the device has joined that is
    not link-local, and of every transient IPv6 group it has joined, is
    classified as announceable, whatever else the device has joined. *)
Theorem joined_groups_are_announceable (dev : net_device) :
  (forall groups g,
     ip_ptr dev = Some groups -> In g groups ->
     ipv4_is_local_multicast g = false ->
     batadv_mcast_mla_has_unspecial_addr (ip_eth_mc_map g) dev = true) /\
  (forall groups g,
     ip6_ptr dev = Some groups -> In g groups ->
     IPV6_ADDR_MC_FLAG_TRANSIENT g = true ->
     batadv_mcast_mla_has_unspecial_addr (ipv6_eth_mc_map g) dev = true).
Proof.
  split; intros groups g P Hin F.
  - unfold batadv_mcast_mla_has_unspecial_addr. cbn [ip_eth_mc_map o0 o1 o2].
    cbn [Z.eqb Pos.eqb andb].
    unfold batadv_mcast_mla_has_non_ll_ipv4. rewrite P.
    apply has_non_ll_ipv4_loop_spec. exists g. auto.
  - unfold batadv_mcast_mla_has_unspecial_addr.
    cbn [ipv6_eth_mc_map o0 o1 o2]. cbn [Z.eqb Pos.eqb andb].
    unfold batadv_mcast_mla_has_transient_ipv6. rewrite P.
    apply has_transient_ipv6_loop_spec. exists g. auto.
Qed.

Lemma joined_groups_are_announceable_witness :
  batadv_mcast_mla_has_unspecial_addr (ip_eth_mc_map (ip4 224 1 2 4))
    dev_plain = true /\
  batadv_mcast_mla_has_unspecial_addr (ipv6_eth_mc_map ip6_transient)
    dev_plain = true.
Proof.
  split.
  - apply (proj1 (joined_groups_are_announceable dev_plain)
             [ip4 224 1 2 3; ip4 224 0 0 251; ip4 224 1 2 4]
             (ip4 224 1 2 4)).
    + reflexivity.
    + simpl. auto.
    + reflexivity.
  - apply (proj2 (joined_groups_are_announceable dev_plain)
             [ip6_all_nodes; ip6_transient] ip6_transient).
    + reflexivity.
    + simpl. auto.
    + reflexivity.
Defined.

(** ** The local collector, when it does not fail *)

(* Without allocation failure the loop keeps the first announceable entries
   it meets, as many as the budget left allows, newest in front. *)
Lemma local_collect_loop_success (dev : net_device) (num_mla_max : Z) :
  forall mc_list num_mla l k ret num_mla' l' k',
    local_collect_loop dev num_mla_max mc_list num_mla l k
      = (ret, num_mla', l', k') ->
    ret = 0 ->
    l' = rev (firstn (Z.to_nat (num_mla_max - num_mla))
                (filter (fun a => batadv_mcast_mla_has_unspecial_addr a dev)
                        mc_list)) ++ l.
Proof.
  induction mc_list as [|e rest IH]; intros n l k ret n' l' k' E R;
    cbn [local_collect_loop] in E.
  - inversion E; subst. cbn [filter]. rewrite firstn_nil. reflexivity.
  - destruct (n >=? num_mla_max) eqn:G.
    { inversion E; subst. rewrite Z.geb_leb in G. apply Z.leb_le in G.
      replace (Z.to_nat _) with 0%nat by lia.
      reflexivity. }
    apply geb_false_lt in G. cbn [filter].
    destruct (batadv_mcast_mla_has_unspecial_addr e dev) eqn:U; simpl in E.
    2:{ eapply IH; eauto. }
    destruct (kmalloc k) as [[|] k1].
    + rewrite (IH _ _ _ _ _ _ _ E R).
      replace (Z.to_nat (num_mla_max - n))
        with (S (Z.to_nat (num_mla_max - (n + 1)))) by lia.
      cbn [firstn rev]. rewrite <- app_assoc. reflexivity.
    + inversion E; subst. discriminate.
Qed.

(* The warnings of the loop. *)
Lemma local_collect_loop_dmesg (dev : net_device) (num_mla_max : Z) :
  forall mc_list num_mla l k ret num_mla' l' k',
    local_collect_loop dev num_mla_max mc_list num_mla l k
      = (ret, num_mla', l', k') ->
    (dmesg k' = dmesg k \/
     dmesg k' = dmesg k ++ [Too_many_local num_mla_max]) /\
    (Z.of_nat (length mc_list) <= num_mla_max - num_mla ->
     dmesg k' = dmesg k) /\
    (ret = 0 -> num_mla <= num_mla_max ->
     num_mla_max - num_mla <
       Z.of_nat (length (filter
         (fun a => batadv_mcast_mla_has_unspecial_addr a dev) mc_list)) ->
     dmesg k' = dmesg k ++ [Too_many_local num_mla_max] /\
     num_mla' = num_mla_max).
Proof.
  induction mc_list as [|e rest IH]; intros n l k ret n' l' k' E;
    cbn [local_collect_loop] in E.
  - inversion E; subst. cbn [filter length].
    repeat split; auto; intros; lia.
  - destruct (n >=? num_mla_max) eqn:G.
    { inversion E; subst. rewrite Z.geb_leb in G. apply Z.leb_le in G.
      cbn [length dmesg pr_warn]. simpl.
      split; [right; reflexivity|]. split; [intros; lia|].
      intros _ L _. split; [reflexivity | lia]. }
    apply geb_false_lt in G. cbn [filter length].
    destruct (batadv_mcast_mla_has_unspecial_addr e dev) eqn:U; simpl in E.
    2:{ destruct (IH _ _ _ _ _ _ _ E) as [I1 [I2 I3]].
        split; [exact I1|]. split; [intros; apply I2; lia|].
        intros R L F. apply I3; assumption. }
    destruct (kmalloc k) as [[|] k1] eqn:K.
    + apply kmalloc_true in K. destruct K as [_ [_ K]].
      destruct (IH _ _ _ _ _ _ _ E) as [I1 [I2 I3]]. rewrite K in *.
      split; [exact I1|]. split; [intros; apply I2; lia|].
      intros R L F. apply I3; try assumption; try lia.
      cbn [length] in F. lia.
    + apply kmalloc_false in K. destruct K as [_ [_ K]].
      inversion E; subst.
      split; [left; exact K|]. split; [intros; exact K|].
      intros R. discriminate R.
Qed.

(** X5.  When the local collector returns without error, it has put in front
    of the list the first announceable entries of the hardware list of the
    device it reads (the master, when there is one), in reverse order, as
    many as the budget allows: an entry past the budget is dropped, and the
    count returned is the number kept, at most the length of the hardware
    list. *)
Theorem local_collect_keeps_first_announceable (dev : net_device)
  (l : list eth_addr) (num_mla_max : Z) (k : kernel) ret l' k' :
  batadv_mcast_mla_local_collect dev l num_mla_max k = (ret, l', k') ->
  0 <= ret ->
  let kept :=
    firstn (Z.to_nat num_mla_max)
      (filter (fun a => batadv_mcast_mla_has_unspecial_addr a
                          (local_collect_dev dev))
              (mc (local_collect_dev dev))) in
  l' = rev kept ++ l /\ ret = Z.of_nat (length kept) /\
  ret <= Z.of_nat (length (mc (local_collect_dev dev))) /\
  ret <= Z.max 0 num_mla_max.
Proof.
  intros E R kept.
  pose proof E as E0.
  unfold batadv_mcast_mla_local_collect in E. cbv zeta in E.
  destruct (local_collect_loop (local_collect_dev dev) num_mla_max
              (mc (local_collect_dev dev)) 0 l k)
    as [[[r n'] l1] k1] eqn:L.
  destruct (local_collect_loop_inv _ _ _ _ _ _ _ _ _ _ L)
    as [kept0 [H1 [_ [H3 [_ [_ [H6 _]]]]]]].
  assert (R0 : r = 0).
  { destruct H6 as [->| ->]; [reflexivity|].
    inversion E; subst. simpl in R. unfold ENOMEM in R. lia. }
  pose proof (local_collect_loop_success _ _ _ _ _ _ _ _ _ _ L R0) as S.
  rewrite Z.sub_0_r in S. fold kept in S.
  assert (Lk : length kept0 = length kept).
  { pose proof (f_equal (@length _) S) as SL. rewrite H1 in SL.
    rewrite !length_app, length_rev in SL. lia. }
  subst r. cbn [Z.ltb Z.compare] in E.
  assert (E1 : n' = ret /\ l1 = l') by (inversion E; auto).
  destruct E1 as [<- <-]. clear E.
  split; [exact S|]. split; [lia|].
  assert (B : (length kept <= length (mc (local_collect_dev dev)))%nat).
  { unfold kept. rewrite length_firstn.
    etransitivity; [apply Nat.le_min_r | apply filter_length_le]. }
  assert (B2 : (length kept <= Z.to_nat num_mla_max)%nat).
  { unfold kept. rewrite length_firstn. apply Nat.le_min_l. }
  split; lia.
Qed.

Lemma local_collect_keeps_first_announceable_witness :
  snd (fst (batadv_mcast_mla_local_collect dev_plain [mac_C] 2 kernel0))
  = rev (firstn 2
      (filter (fun a => batadv_mcast_mla_has_unspecial_addr a dev_plain)
              (mc dev_plain))) ++ [mac_C].
Proof.
  destruct (batadv_mcast_mla_local_collect dev_plain [mac_C] 2 kernel0)
    as [[ret l'] k'] eqn:E.
  destruct (local_collect_keeps_first_announceable dev_plain [mac_C] 2
              kernel0 ret l' k' E) as [S _].
  - vm_compute in E. inversion E. lia.
  - exact S.
Defined.

(** X6.  The local collector warns at most once in a call; it does not warn
    when the hardware list has no more entries than the budget; and when it
    returns without error from a list with more announceable entries than a
    non-negative budget, it has warned and the count returned is the
    budget. *)
Theorem local_collect_warns_past_capacity (dev : net_device)
  (l : list eth_addr) (num_mla_max : Z) (k : kernel) ret l' k' :
  batadv_mcast_mla_local_collect dev l num_mla_max k = (ret, l', k') ->
  (dmesg k' = dmesg k \/
   dmesg k' = dmesg k ++ [Too_many_local num_mla_max]) /\
  (Z.of_nat (length (mc (local_collect_dev dev))) <= num_mla_max ->
   dmesg k' = dmesg k) /\
  (0 <= ret -> 0 <= num_mla_max ->
   num_mla_max <
     Z.of_nat (length (filter
       (fun a => batadv_mcast_mla_has_unspecial_addr a
                   (local_collect_dev dev))
       (mc (local_collect_dev dev)))) ->
   dmesg k' = dmesg k ++ [Too_many_local num_mla_max] /\
   ret = num_mla_max).
Proof.
  intros E.
  unfold batadv_mcast_mla_local_collect in E. cbv zeta in E.
  destruct (local_collect_loop (local_collect_dev dev) num_mla_max
              (mc (local_collect_dev dev)) 0 l k)
    as [[[r n'] l1] k1] eqn:L.
  destruct (local_collect_loop_dmesg _ _ _ _ _ _ _ _ _ _ L) as [D1 [D2 D3]].
  destruct (local_collect_loop_inv _ _ _ _ _ _ _ _ _ _ L)
    as [kept0 [_ [_ [H3 [_ [_ [H6 _]]]]]]].
  inversion E; subst ret l1 k1. clear E.
  split; [exact D1|]. split; [intros B; apply D2; lia|].
  intros R M F.
  assert (R0 : r = 0).
  { destruct H6 as [->| ->]; [reflexivity|]. simpl in R.
    unfold ENOMEM in R. lia. }
  subst r. simpl.
  destruct D3 as [D3 N]; [reflexivity | lia | lia |].
  split; [exact D3 | exact N].
Qed.

Lemma local_collect_warns_past_capacity_witness :
  dmesg (snd (batadv_mcast_mla_local_collect dev_plain [] 2 kernel0))
  = [] ++ [Too_many_local 2] /\
  dmesg (snd (batadv_mcast_mla_local_collect dev_plain [] 5 kernel0)) = [].
Proof.
  destruct (batadv_mcast_mla_local_collect dev_plain [] 2 kernel0)
    as [[ret l'] k'] eqn:E.
  destruct (batadv_mcast_mla_local_collect dev_plain [] 5 kernel0)
    as [[ret5 l5] k5] eqn:E5.
  destruct (local_collect_warns_past_capacity dev_plain [] 2 kernel0
              ret l' k' E) as [_ [_ W]].
  destruct (local_collect_warns_past_capacity dev_plain [] 5 kernel0
              ret5 l5 k5 E5) as [_ [Q _]].
  split.
  - apply W.
    + vm_compute in E. inversion E. lia.
    + lia.
    + vm_compute. reflexivity.
  - apply Q. vm_compute. discriminate.
Defined.

(** ** The bridge collector *)

Lemma br_ip_list_free_exact (l : list br_ip) : forall k,
  br_ip_list_free l k =
  ([], Kernel (kmalloc_oracle k) (hw_addr_live k)
              (br_ip_live k - Z.of_nat (length l)) (dmesg k)).
Proof.
  induction l as [|e l IH]; intros k.
  - simpl. destruct k. simpl. rewrite Z.sub_0_r. reflexivity.
  - cbn [br_ip_list_free]. rewrite IH. cbn [kmalloc_oracle hw_addr_live
      br_ip_live dmesg length]. do 2 f_equal. lia.
Qed.

(* The entries the loop adds are pairwise different and none of them was in
   the list before. *)
Lemma bridge_collect_loop_fresh (cfg : config) (num_mla_max : Z) :
  forall br_list ret0 num_mla l k ret num_mla' l' k',
    bridge_collect_loop cfg num_mla_max br_list ret0 num_mla l k
      = (ret, num_mla', l', k') ->
    exists added,
      l' = added ++ l /\ NoDup added /\ (forall a, In a added -> ~ In a l).
Proof.
  induction br_list as [|e rest IH]; intros r0 n l k ret n' l' k' E;
    cbn [bridge_collect_loop] in E.
  - inversion E; subst. exists []. split; [reflexivity|].
    split; [constructor | intros a []].
  - destruct (n >=? num_mla_max).
    { inversion E; subst. exists []. split; [reflexivity|].
      split; [constructor | intros a []]. }
    cbv zeta in E.
    destruct (batadv_mcast_mla_is_duplicate
                (batadv_mcast_mla_br_addr_cpy cfg e) l) eqn:U.
    { eapply IH; eauto. }
    apply is_duplicate_not_In in U.
    destruct (kmalloc k) as [[|] k1].
    + destruct (IH _ _ _ _ _ _ _ _ E) as [added [-> [ND F]]].
      exists (added ++ [batadv_mcast_mla_br_addr_cpy cfg e]).
      rewrite <- app_assoc. split; [reflexivity|]. split.
      * apply NoDup_app; [exact ND | repeat constructor; intros [] |].
        intros a Ha [Q|[]]. apply (F a Ha). left. exact Q.
      * intros a Ha. apply in_app_or in Ha. destruct Ha as [Ha|[<-|[]]].
        -- intros Hl. apply (F a Ha). right. exact Hl.
        -- exact U.
    + inversion E; subst. exists []. split; [reflexivity|].
      split; [constructor | intros a []].
Qed.

(* When the loop ends without allocation failure and below its budget, it
   has met every entry: the address of each one is in the list. *)
Lemma bridge_collect_loop_complete (cfg : config) (num_mla_max : Z) :
  forall br_list ret0 num_mla l k ret num_mla' l' k',
    bridge_collect_loop cfg num_mla_max br_list ret0 num_mla l k
      = (ret, num_mla', l', k') ->
    ret <> - ENOMEM -> num_mla' < num_mla_max ->
    forall e, In e br_list -> In (batadv_mcast_mla_br_addr_cpy cfg e) l'.
Proof.
  induction br_list as [|e rest IH]; intros r0 n l k ret n' l' k' E R B x Hx;
    cbn [bridge_collect_loop] in E; [destruct Hx|].
  destruct (n >=? num_mla_max) eqn:G.
  { inversion E; subst. rewrite Z.geb_leb in G. apply Z.leb_le in G. lia. }
  cbv zeta in E.
  destruct (batadv_mcast_mla_is_duplicate
              (batadv_mcast_mla_br_addr_cpy cfg e) l) eqn:U.
  { destruct Hx as [<-|Hx]; [|eapply IH; eauto].
    destruct (bridge_collect_loop_inv _ _ _ _ _ _ _ _ _ _ _ E)
      as [added [-> _]].
    apply in_or_app. right. apply is_duplicate_In. exact U. }
  destruct (kmalloc k) as [[|] k1].
  - destruct Hx as [<-|Hx]; [|eapply IH; eauto].
    destruct (bridge_collect_loop_inv _ _ _ _ _ _ _ _ _ _ _ E)
      as [added [-> _]].
    apply in_or_app. right. left. reflexivity.
  - inversion E; subst. congruence.
Qed.

(* The loop as the wrapper runs it, when the bridge query succeeded. *)
Lemma bridge_collect_unfold (cfg : config) (dev : net_device)
  (l : list eth_addr) (num_mla_max : Z) (k : kernel) :
  0 <= fst (br_adjacent dev) ->
  exists r n' l1 k1,
    bridge_collect_loop cfg num_mla_max (snd (br_adjacent dev))
      (fst (br_adjacent dev)) 0 l
      (Kernel (kmalloc_oracle k) (hw_addr_live k)
         (br_ip_live k + Z.of_nat (length (snd (br_adjacent dev))))
         (dmesg k)) = (r, n', l1, k1) /\
    batadv_mcast_mla_bridge_collect cfg dev l num_mla_max k =
      (if r <? 0 then r else n', l1, [],
       Kernel (kmalloc_oracle k1) (hw_addr_live k1)
         (br_ip_live k1 - Z.of_nat (length (snd (br_adjacent dev))))
         (dmesg k1)).
Proof.
  intros R.
  unfold batadv_mcast_mla_bridge_collect, br_multicast_list_adjacent.
  destruct (br_adjacent dev) as [r0 bl]. cbn [fst snd] in *.
  apply Z.ltb_ge in R. rewrite R.
  destruct (bridge_collect_loop cfg num_mla_max bl r0 0 l _)
    as [[[r n'] l1] k1] eqn:E.
  exists r, n', l1, k1. split; [reflexivity|].
  rewrite br_ip_list_free_exact. reflexivity.
Qed.

(* A failed query of the bridge: nothing is collected. *)
Lemma bridge_collect_on_query_error (cfg : config)
  (dev : net_device) (l : list eth_addr) (num_mla_max : Z) (k : kernel) :
  fst (br_adjacent dev) < 0 ->
  batadv_mcast_mla_bridge_collect cfg dev l num_mla_max k
  = (fst (br_adjacent dev), l, [], k).
Proof.
  intros R.
  unfold batadv_mcast_mla_bridge_collect, br_multicast_list_adjacent.
  destruct (br_adjacent dev) as [r0 bl]. cbn [fst] in *.
  pose proof R as R'. apply Z.ltb_lt in R'. rewrite R'.
  rewrite br_ip_list_free_exact, R'.
  cbn [kmalloc_oracle hw_addr_live br_ip_live dmesg].
  destruct k as [o h b d]. cbn. do 2 f_equal. lia.
Qed.

(** X7.  When the query of the bridge fails, the bridge collector returns
    the error code of the query, leaves the caller's list as it is, calls
    no allocation, and frees whatever entries the query had produced: the
    kernel state is the one before the call. *)
Theorem bridge_collect_propagates_query_error (cfg : config)
  (dev : net_device) (l : list eth_addr) (num_mla_max : Z) (k : kernel) :
  fst (br_adjacent dev) < 0 ->
  batadv_mcast_mla_bridge_collect cfg dev l num_mla_max k
  = (fst (br_adjacent dev), l, [], k) /\
  fst (fst (fst (batadv_mcast_mla_bridge_collect cfg dev l num_mla_max k)))
  < 0.
Proof.
  intros R. rewrite bridge_collect_on_query_error by exact R.
  split; [reflexivity | exact R].
Qed.

Lemma bridge_collect_propagates_query_error_witness :
  batadv_mcast_mla_bridge_collect (Config true true)
    (dev_bridged (-5, [snoop_C])) [mac_A] BATADV_MLA_MAX
    (Kernel [false] 1 0 [])
  = (-5, [mac_A], [], Kernel [false] 1 0 []).
Proof.
  apply (bridge_collect_propagates_query_error (Config true true)
           (dev_bridged (-5, [snoop_C])) [mac_A] BATADV_MLA_MAX
           (Kernel [false] 1 0 [])).
  reflexivity.
Defined.

(** X8.  When the bridge collector returns without error, the entries it
    has put in front of the caller's list are converted snooped addresses,
    pairwise different, none of them in the list before; their number is the
    value returned and is within the budget; and the list fetched from the
    bridge is released. *)
Theorem bridge_collect_adds_fresh_snooped (cfg : config) (dev : net_device)
  (l : list eth_addr) (num_mla_max : Z) (k : kernel) ret l' bl' k' :
  batadv_mcast_mla_bridge_collect cfg dev l num_mla_max k
    = (ret, l', bl', k') ->
  0 <= ret ->
  exists added,
    l' = added ++ l /\ ret = Z.of_nat (length added) /\
    ret <= Z.max 0 num_mla_max /\ NoDup added /\
    (forall a, In a added ->
       ~ In a l /\
       In a (map (batadv_mcast_mla_br_addr_cpy cfg) (snd (br_adjacent dev))))
    /\ bl' = [] /\ br_ip_live k' = br_ip_live k /\
    hw_addr_live k' = hw_addr_live k + ret.
Proof.
  intros E R.
  destruct (bridge_collect_inv _ _ _ _ _ _ _ _ _ E)
    as [-> [added [-> [F [L1 [L2 [[Rn|Re] [B _]]]]]]]]; [lia|].
  exists added.
  assert (Fr : NoDup added /\ forall a, In a added -> ~ In a l).
  { destruct (Z_lt_dec (fst (br_adjacent dev)) 0) as [Q|Q].
    - rewrite (bridge_collect_on_query_error _ _ _ _ _ Q) in E.
      inversion E; subst. lia.
    - destruct (bridge_collect_unfold cfg dev l num_mla_max k)
        as [r [n' [l1 [k1 [Lp W]]]]]; [lia|].
      rewrite W in E.
      destruct (bridge_collect_loop_fresh _ _ _ _ _ _ _ _ _ _ _ Lp)
        as [added' [A1 [A2 A3]]].
      assert (added' = added).
      { apply (app_inv_tail l). inversion E; subst. congruence. }
      subst added'. auto. }
  destruct Fr as [ND Fr].
  repeat split; try assumption; try lia.
  - apply Fr. assumption.
  - rewrite Forall_forall in F. apply F. assumption.
Qed.

Lemma bridge_collect_adds_fresh_snooped_witness :
  exists added,
    snd (fst (fst (batadv_mcast_mla_bridge_collect (Config true true)
      (dev_bridged (0, [snoop_C; snoop_C; snoop_6])) [mac_A] BATADV_MLA_MAX
      kernel0))) = added ++ [mac_A] /\
    2 = Z.of_nat (length added) /\ NoDup added.
Proof.
  destruct (batadv_mcast_mla_bridge_collect (Config true true)
      (dev_bridged (0, [snoop_C; snoop_C; snoop_6])) [mac_A] BATADV_MLA_MAX
      kernel0) as [[[ret l'] bl'] k'] eqn:E.
  assert (R : ret = 2) by (vm_compute in E; inversion E; reflexivity).
  destruct (bridge_collect_adds_fresh_snooped _ _ _ _ _ _ _ _ _ E)
    as [added [A1 [A2 [_ [A4 _]]]]].
  - lia.
  - exists added. cbn [fst snd]. rewrite <- R. auto.
Defined.

(** X9.  When the bridge collector returns without error a count below its
    budget, it has gone through the whole list of the bridge: the address of
    every snooped entry is in the caller's list afterwards. *)
Theorem bridge_collect_covers_snooped (cfg : config) (dev : net_device)
  (l : list eth_addr) (num_mla_max : Z) (k : kernel) ret l' bl' k' :
  batadv_mcast_mla_bridge_collect cfg dev l num_mla_max k
    = (ret, l', bl', k') ->
  0 <= ret < num_mla_max ->
  forall e, In e (snd (br_adjacent dev)) ->
            In (batadv_mcast_mla_br_addr_cpy cfg e) l'.
Proof.
  intros E [R B] e He.
  destruct (Z_lt_dec (fst (br_adjacent dev)) 0) as [Q|Q].
  { rewrite (bridge_collect_on_query_error _ _ _ _ _ Q) in E.
    inversion E; subst. lia. }
  destruct (bridge_collect_unfold cfg dev l num_mla_max k)
    as [r [n' [l1 [k1 [Lp W]]]]]; [lia|].
  rewrite W in E.
  destruct (bridge_collect_loop_inv _ _ _ _ _ _ _ _ _ _ _ Lp)
    as [_ [_ [_ [_ [_ [_ [Hr _]]]]]]].
  assert (l1 = l') by (inversion E; reflexivity). subst l1.
  destruct (r <? 0) eqn:Rn.
  - assert (r = ret) by (inversion E; reflexivity). apply Z.ltb_lt in Rn. lia.
  - assert (n' = ret) by (inversion E; reflexivity). subst n'.
    apply Z.ltb_ge in Rn.
    eapply bridge_collect_loop_complete; [exact Lp | | lia | exact He].
    unfold ENOMEM. lia.
Qed.

Lemma bridge_collect_covers_snooped_witness :
  In (batadv_mcast_mla_br_addr_cpy (Config true true) snoop_6)
     (snd (fst (fst (batadv_mcast_mla_bridge_collect (Config true true)
        (dev_bridged (0, [snoop_C; snoop_C; snoop_6])) [mac_A]
        BATADV_MLA_MAX kernel0)))).
Proof.
  destruct (batadv_mcast_mla_bridge_collect (Config true true)
      (dev_bridged (0, [snoop_C; snoop_C; snoop_6])) [mac_A] BATADV_MLA_MAX
      kernel0) as [[[ret l'] bl'] k'] eqn:E.
  assert (R : ret = 2) by (vm_compute in E; inversion E; reflexivity).
  cbn [fst snd].
  apply (bridge_collect_covers_snooped _ _ _ _ _ _ _ _ _ E).
  - unfold BATADV_MLA_MAX, UINT8_MAX. lia.
  - simpl. auto.
Defined.

(** ** A budget that is used up *)

(** X10.  With a budget of zero or less neither collector adds an entry or
    calls the allocator, and neither reports an error: the local collector
    returns 0 with the caller's list as it was (and has warned exactly when
    the hardware list is not empty); the bridge collector, when the query of
    the bridge succeeded, returns 0 with the caller's list as it was and the
    fetched entries released. *)
Theorem collectors_with_exhausted_budget (cfg : config) (dev : net_device)
  (l : list eth_addr) (num_mla_max : Z) (k : kernel) :
  num_mla_max <= 0 ->
  batadv_mcast_mla_local_collect dev l num_mla_max k
  = (0, l, match mc (local_collect_dev dev) with
           | [] => k
           | _ :: _ => pr_warn (Too_many_local num_mla_max) k
           end) /\
  (0 <= fst (br_adjacent dev) ->
   exists k',
     batadv_mcast_mla_bridge_collect cfg dev l num_mla_max k
     = (0, l, [], k') /\
     kmalloc_oracle k' = kmalloc_oracle k /\
     hw_addr_live k' = hw_addr_live k /\ br_ip_live k' = br_ip_live k).
Proof.
  intros B. split.
  - unfold batadv_mcast_mla_local_collect. cbv zeta.
    destruct (mc (local_collect_dev dev)) as [|e rest];
      cbn [local_collect_loop]; [reflexivity|].
    replace (0 >=? num_mla_max) with true
      by (symmetry; rewrite Z.geb_leb; apply Z.leb_le; exact B).
    reflexivity.
  - intros Q.
    destruct (bridge_collect_unfold cfg dev l num_mla_max k Q)
      as [r [n' [l1 [k1 [Lp W]]]]].
    rewrite W. clear W.
    destruct (snd (br_adjacent dev)) as [|e rest];
      cbn [bridge_collect_loop] in Lp.
    + inversion Lp; subst. apply Z.ltb_ge in Q. rewrite Q.
      eexists. split; [reflexivity|]. simpl. repeat split; lia.
    + replace (0 >=? num_mla_max) with true in Lp
        by (symmetry; rewrite Z.geb_leb; apply Z.leb_le; exact B).
      inversion Lp; subst. apply Z.ltb_ge in Q. rewrite Q.
      eexists. split; [reflexivity|]. simpl. repeat split; lia.
Qed.

Lemma collectors_with_exhausted_budget_witness :
  batadv_mcast_mla_local_collect dev_plain [mac_C] 0 (Kernel [false] 1 0 [])
  = (0, [mac_C], pr_warn (Too_many_local 0) (Kernel [false] 1 0 [])) /\
  exists k',
    batadv_mcast_mla_bridge_collect (Config true true)
      (dev_bridged (0, [snoop_C])) [mac_C] 0 (Kernel [false] 1 0 [])
    = (0, [mac_C], [], k').
Proof.
  split.
  - apply (collectors_with_exhausted_budget (Config true true) dev_plain
             [mac_C] 0 (Kernel [false] 1 0 [])). lia.
  - destruct (collectors_with_exhausted_budget (Config true true)
                (dev_bridged (0, [snoop_C])) [mac_C] 0
                (Kernel [false] 1 0 [])) as [_ Bc]; [lia|].
    destruct Bc as [k' [E _]]; [simpl; lia|].
    exists k'. exact E.
Defined.

(** ** The dumps *)

Lemma local_seq_print_loop_spec (dev : net_device) :
  forall mc_list seq,
    local_seq_print_loop dev mc_list seq
    = seq ++ map Seq_mac
        (filter (fun a => batadv_mcast_mla_has_unspecial_addr a dev) mc_list).
Proof.
  induction mc_list as [|e rest IH]; intros seq;
    cbn [local_seq_print_loop filter map].
  - symmetry. apply app_nil_r.
  - destruct (batadv_mcast_mla_has_unspecial_addr e dev); cbn [negb map].
    + rewrite IH. unfold seq_printf. rewrite <- app_assoc. reflexivity.
    + apply IH.
Qed.

Lemma seq_macs_app (s1 s2 : list seq_line) :
  seq_macs (s1 ++ s2) = seq_macs s1 ++ seq_macs s2.
Proof. unfold seq_macs. apply flat_map_app. Qed.

Lemma seq_macs_map (l : list eth_addr) : seq_macs (map Seq_mac l) = l.
Proof.
  induction l as [|a l IH]; [reflexivity|].
  cbn. f_equal. exact IH.
Qed.

(* The list the local collector hands back when it does not fail. *)
Lemma local_collect_success_list (dev : net_device) (l : list eth_addr)
  (num_mla_max : Z) (k : kernel) ret l' k' :
  batadv_mcast_mla_local_collect dev l num_mla_max k = (ret, l', k') ->
  0 <= ret ->
  l' = rev (firstn (Z.to_nat num_mla_max)
         (filter (fun a => batadv_mcast_mla_has_unspecial_addr a
                             (local_collect_dev dev))
                 (mc (local_collect_dev dev)))) ++ l.
Proof.
  intros E R.
  unfold batadv_mcast_mla_local_collect in E. cbv zeta in E.
  destruct (local_collect_loop (local_collect_dev dev) num_mla_max
              (mc (local_collect_dev dev)) 0 l k)
    as [[[r n'] l1] k1] eqn:L.
  destruct (local_collect_loop_inv _ _ _ _ _ _ _ _ _ _ L)
    as [_ [_ [_ [_ [_ [_ [H6 _]]]]]]].
  assert (R0 : r = 0).
  { destruct H6 as [->| ->]; [reflexivity|].
    inversion E; subst. simpl in R. unfold ENOMEM in R. lia. }
  pose proof (local_collect_loop_success _ _ _ _ _ _ _ _ _ _ L R0) as S.
  rewrite Z.sub_0_r in S.
  assert (Q : l1 = l') by (inversion E; reflexivity).
  rewrite <- Q. exact S.
Qed.

(** X11.  The local dump returns 0 and appends to the seq_file one header
    and then the announceable entries of the hardware list of the device it
    reads (the master, when there is one), in list order, and nothing else.
    These are the addresses the local collector gathers: when the collector
    returns without error and its budget covers them all, it has put exactly
    the dumped addresses, in reverse order, in front of the caller's list. *)
Theorem local_dump_lists_what_is_collected (net_dev : net_device)
  (seq : list seq_line) :
  let dev := local_collect_dev net_dev in
  let announceable :=
    filter (fun a => batadv_mcast_mla_has_unspecial_addr a dev) (mc dev) in
  batadv_mcast_mla_local_seq_print_text net_dev seq
  = (0, seq ++ Seq_local_header dev
                 (match master net_dev with
                  | Some _ => Some net_dev
                  | None => None
                  end)
               :: map Seq_mac announceable) /\
  (forall l num_mla_max k ret l' k',
     batadv_mcast_mla_local_collect net_dev l num_mla_max k = (ret, l', k') ->
     0 <= ret -> Z.of_nat (length announceable) <= num_mla_max ->
     l' = rev (seq_macs (snd (batadv_mcast_mla_local_seq_print_text
                                net_dev []))) ++ l).
Proof.
  intros dev announceable.
  assert (D : forall s,
    batadv_mcast_mla_local_seq_print_text net_dev s
    = (0, s ++ Seq_local_header dev
                 (match master net_dev with
                  | Some _ => Some net_dev
                  | None => None
                  end)
               :: map Seq_mac announceable)).
  { intros s. unfold batadv_mcast_mla_local_seq_print_text. cbv zeta.
    rewrite local_seq_print_loop_spec. unfold seq_printf.
    rewrite <- app_assoc. reflexivity. }
  split; [apply D|].
  intros l num_mla_max k ret l' k' E R B.
  rewrite D. cbn [snd app seq_macs flat_map].
  change (flat_map _ (map Seq_mac announceable))
    with (seq_macs (map Seq_mac announceable)).
  rewrite seq_macs_map.
  rewrite (local_collect_success_list _ _ _ _ _ _ _ E R).
  fold dev. fold announceable.
  rewrite firstn_all2 by lia. reflexivity.
Qed.

Lemma local_dump_lists_what_is_collected_witness :
  snd (fst (batadv_mcast_mla_local_collect dev_plain [mac_C] 3 kernel0))
  = rev (seq_macs (snd (batadv_mcast_mla_local_seq_print_text
                          dev_plain []))) ++ [mac_C].
Proof.
  destruct (batadv_mcast_mla_local_collect dev_plain [mac_C] 3 kernel0)
    as [[ret l'] k'] eqn:E.
  cbn [fst snd].
  apply (proj2 (local_dump_lists_what_is_collected dev_plain [])
           [mac_C] 3 kernel0 ret l' k' E).
  - vm_compute in E. inversion E. lia.
  - vm_compute. discriminate.
Defined.

Lemma bridge_seq_print_loop_spec (cfg : config) :
  forall bl seq k,
    bridge_seq_print_loop cfg bl seq k
    = ([], seq ++ map (fun e => Seq_mac (batadv_mcast_mla_br_addr_cpy cfg e))
                      bl,
       Kernel (kmalloc_oracle k) (hw_addr_live k)
              (br_ip_live k - Z.of_nat (length bl)) (dmesg k)).
Proof.
  induction bl as [|e rest IH]; intros seq k;
    cbn [bridge_seq_print_loop map length].
  - rewrite app_nil_r. destruct k. cbn. do 2 f_equal. lia.
  - cbv zeta. rewrite IH. unfold seq_printf. rewrite <- app_assoc.
    cbn [kmalloc_oracle hw_addr_live br_ip_live dmesg app].
    do 2 f_equal. lia.
Qed.

(** X12.  The bridge dump returns 0 and appends to the seq_file one header
    and then the converted address of every entry the query of the bridge
    produced, in list order and with repetitions, whatever status the query
    returned; it frees every entry, so the kernel state is the one before the
    call.  Every address the bridge collector adds to a list is among the
    dumped ones. *)
Theorem bridge_dump_lists_every_snooped (cfg : config) (net_dev : net_device)
  (seq : list seq_line) (k : kernel) :
  batadv_mcast_mla_bridge_seq_print_text cfg net_dev seq k
  = (0,
     seq ++ Seq_bridge_header net_dev
         :: map (fun e => Seq_mac (batadv_mcast_mla_br_addr_cpy cfg e))
                (snd (br_adjacent net_dev)),
     [], k) /\
  (forall l num_mla_max kc a,
     In a (snd (fst (fst (batadv_mcast_mla_bridge_collect cfg net_dev l
                            num_mla_max kc)))) ->
     In a l \/
     In a (seq_macs (snd (fst (fst
       (batadv_mcast_mla_bridge_seq_print_text cfg net_dev [] k)))))).
Proof.
  assert (D : forall s,
    batadv_mcast_mla_bridge_seq_print_text cfg net_dev s k
    = (0,
       s ++ Seq_bridge_header net_dev
         :: map (fun e => Seq_mac (batadv_mcast_mla_br_addr_cpy cfg e))
                (snd (br_adjacent net_dev)),
       [], k)).
  { intros s.
    unfold batadv_mcast_mla_bridge_seq_print_text, br_multicast_list_adjacent.
    destruct (br_adjacent net_dev) as [r0 bl]. cbn [snd].
    rewrite bridge_seq_print_loop_spec. unfold seq_printf.
    rewrite <- app_assoc.
    cbn [kmalloc_oracle hw_addr_live br_ip_live dmesg app].
    destruct k as [o h b d]. cbn. do 2 f_equal. lia. }
  split; [apply D|].
  intros l num_mla_max kc a Ha.
  destruct (batadv_mcast_mla_bridge_collect cfg net_dev l num_mla_max kc)
    as [[[ret l'] bl'] k'] eqn:E.
  cbn [fst snd] in Ha.
  destruct (bridge_collect_inv _ _ _ _ _ _ _ _ _ E)
    as [_ [added [-> [F _]]]].
  apply in_app_or in Ha. destruct Ha as [Ha|Ha]; [right | left; exact Ha].
  rewrite D. cbn [fst snd app seq_macs flat_map].
  rewrite Forall_forall in F. specialize (F a Ha).
  apply in_map_iff in F. destruct F as [e [<- He]].
  apply in_flat_map. exists (Seq_mac (batadv_mcast_mla_br_addr_cpy cfg e)).
  split; [|left; reflexivity].
  apply in_map_iff. exists e. auto.
Qed.

(** ** The cycle as a whole *)

(* The two ways through the cycle, with the allocation count at the point
   where the update: part starts. *)
Lemma tt_update_paths {table : Type} `{TranslationTable table}
  (cfg : config) (num_mla : Z) (bat_priv : batadv_priv table) (k : kernel) :
  (exists k',
     batadv_mcast_mla_tt_update cfg num_mla bat_priv k = (bat_priv, [], k') /\
     hw_addr_live k' = hw_addr_live k /\ br_ip_live k' = br_ip_live k) \/
  (exists mcast_list k0,
     batadv_mcast_mla_tt_update cfg num_mla bat_priv k
     = tt_update_update bat_priv mcast_list k0 /\
     hw_addr_live k0 = hw_addr_live k + Z.of_nat (length mcast_list) /\
     br_ip_live k0 = br_ip_live k /\
     (forall a, In a mcast_list ->
        exists p, primary_if bat_priv = Some p /\
          ((In a (mc (local_collect_dev (soft_iface p))) /\
            batadv_mcast_mla_has_unspecial_addr a
              (local_collect_dev (soft_iface p)) = true) \/
           (CONFIG_BATMAN_ADV_MCAST_BRIDGE_SNOOP cfg = true /\
            In a (map (batadv_mcast_mla_br_addr_cpy cfg)
                      (snd (br_adjacent (soft_iface p)))))))).
Proof.
  unfold batadv_mcast_mla_tt_update.
  destruct (primary_if bat_priv) as [p|].
  2:{ left. exists k. auto. }
  destruct (mcast_group_awareness bat_priv =? 0).
  { right. exists [], k. simpl.
    split; [reflexivity|]. split; [lia|]. split; [reflexivity|].
    intros a []. }
  cbv zeta.
  destruct (batadv_mcast_mla_local_collect (soft_iface p) [] BATADV_MLA_MAX k)
    as [[ret1 l1] k1] eqn:L.
  destruct (local_collect_inv _ _ _ _ _ _ _ L)
    as [kept [-> [F1 [L1 [L2 _]]]]].
  rewrite app_nil_r in *. rewrite Forall_forall in F1.
  destruct (ret1 <? 0).
  { left. destruct (tt_update_out_spec bat_priv kept k1) as [k' [E [O1 O2]]].
    exists k'. split; [exact E|]. split; lia. }
  destruct (CONFIG_BATMAN_ADV_MCAST_BRIDGE_SNOOP cfg).
  2:{ right. exists kept, k1. repeat split; try assumption.
      intros a Ha. exists p. split; [reflexivity|]. left. apply F1, Ha. }
  destruct (batadv_mcast_mla_bridge_collect cfg (soft_iface p) kept
              (BATADV_MLA_MAX - num_mla) k1) as [[[ret2 l2] bl2] k2] eqn:B.
  destruct (bridge_collect_inv _ _ _ _ _ _ _ _ _ B)
    as [_ [added [-> [F2 [B1 [B2 _]]]]]].
  rewrite Forall_forall in F2.
  destruct (ret2 <? 0).
  { left.
    destruct (tt_update_out_spec bat_priv (added ++ kept) k2)
      as [k' [E [O1 O2]]].
    exists k'. split; [exact E|]. rewrite length_app in O1. split; lia. }
  right. exists (added ++ kept), k2. rewrite length_app.
  split; [reflexivity|]. split; [lia|]. split; [lia|].
  intros a Ha. exists p. split; [reflexivity|].
  apply in_app_or in Ha. destruct Ha as [Ha|Ha].
  - right. split; [reflexivity | apply F2, Ha].
  - left. apply F1, Ha.
Qed.

(* The cycle does not touch the switch or the primary interface. *)
Lemma tt_update_frame {table : Type} `{TranslationTable table}
  (cfg : config) (num_mla : Z) (bat_priv : batadv_priv table) (k : kernel) :
  mcast_group_awareness
    (fst (fst (batadv_mcast_mla_tt_update cfg num_mla bat_priv k)))
  = mcast_group_awareness bat_priv /\
  primary_if (fst (fst (batadv_mcast_mla_tt_update cfg num_mla bat_priv k)))
  = primary_if bat_priv.
Proof.
  destruct (tt_update_paths cfg num_mla bat_priv k)
    as [[k' [E _]]|[cand [k0 [E _]]]]; rewrite E.
  - split; reflexivity.
  - destruct (tt_update_update_spec bat_priv cand k0) as [added [k' [U _]]].
    rewrite U. split; reflexivity.
Qed.

(** X13.  On every path the cycle leaves the switch of the optimization and
    the primary interface of [bat_priv] as they were and its local list
    empty, and it leaks no memory: the number of allocated list entries
    changes by exactly the change in length of the announced list, and every
    entry fetched from the bridge is freed. *)
Theorem tt_update_frame_and_memory {table : Type} `{TranslationTable table}
  (cfg : config) (num_mla : Z) (bat_priv : batadv_priv table) (k : kernel) :
  let '(bat_priv', mcast_list', k') :=
    batadv_mcast_mla_tt_update cfg num_mla bat_priv k in
  mcast_group_awareness bat_priv' = mcast_group_awareness bat_priv /\
  primary_if bat_priv' = primary_if bat_priv /\
  mcast_list' = [] /\
  hw_addr_live k' - hw_addr_live k
  = Z.of_nat (length (mla_list bat_priv'))
    - Z.of_nat (length (mla_list bat_priv)) /\
  br_ip_live k' = br_ip_live k.
Proof.
  destruct (tt_update_paths cfg num_mla bat_priv k)
    as [[k' [E [L1 L2]]]|[cand [k0 [E [L1 [L2 _]]]]]]; rewrite E.
  - repeat split; try assumption. lia.
  - destruct (tt_update_update_spec bat_priv cand k0)
      as [added [k' [U [_ [_ [Le [L [Lb _]]]]]]]].
    rewrite U. cbn [mcast_group_awareness primary_if mla_list].
    repeat split; try lia.
    rewrite length_app.
    pose proof (filter_length
      (fun a => batadv_mcast_mla_is_duplicate a cand) (mla_list bat_priv)).
    lia.
Qed.

(** X14.  Without bridge snooping, a cycle with a primary interface, the
    optimization switched on and no allocation failure ends with the
    announced list holding exactly the first 255 announceable addresses of
    the hardware list of the soft interface (of its master, when it has
    one). *)
Theorem tt_update_announces_local_listeners
  {table : Type} `{TranslationTable table}
  (cfg : config) (num_mla : Z) (bat_priv : batadv_priv table) (k : kernel)
  (p : batadv_hard_iface) :
  CONFIG_BATMAN_ADV_MCAST_BRIDGE_SNOOP cfg = false ->
  primary_if bat_priv = Some p ->
  mcast_group_awareness bat_priv <> 0 ->
  0 <= fst (fst (batadv_mcast_mla_local_collect (soft_iface p) []
                   BATADV_MLA_MAX k)) ->
  forall a,
    In a (mla_list (fst (fst
      (batadv_mcast_mla_tt_update cfg num_mla bat_priv k)))) <->
    In a (firstn 255
      (filter (fun a => batadv_mcast_mla_has_unspecial_addr a
                          (local_collect_dev (soft_iface p)))
              (mc (local_collect_dev (soft_iface p))))).
Proof.
  intros C P A R a.
  unfold batadv_mcast_mla_tt_update. rewrite P.
  apply Z.eqb_neq in A. rewrite A. cbv zeta.
  destruct (batadv_mcast_mla_local_collect (soft_iface p) [] BATADV_MLA_MAX k)
    as [[ret1 l1] k1] eqn:L.
  cbn [fst] in R.
  pose proof (local_collect_success_list _ _ _ _ _ _ _ L R) as S.
  rewrite app_nil_r in S.
  apply Z.ltb_ge in R. rewrite R, C.
  destruct (tt_update_update_spec bat_priv l1 k1)
    as [added [k' [U [_ [M _]]]]].
  rewrite U. cbn [fst mla_list].
  rewrite (reconciled_addresses _ _ _ M a), S, <- in_rev.
  reflexivity.
Qed.

Lemma tt_update_announces_local_listeners_witness :
  In mac_6 (mla_list (fst (fst
    (batadv_mcast_mla_tt_update (Config true false) 0
       (priv_of dev_plain 1 [mac_C]) kernel0)))) /\
  ~ In mac_C (mla_list (fst (fst
    (batadv_mcast_mla_tt_update (Config true false) 0
       (priv_of dev_plain 1 [mac_C]) kernel0)))).
Proof.
  assert (W : forall a,
    In a (mla_list (fst (fst
      (batadv_mcast_mla_tt_update (Config true false) 0
         (priv_of dev_plain 1 [mac_C]) kernel0)))) <->
    In a (firstn 255
      (filter (fun a => batadv_mcast_mla_has_unspecial_addr a
                          (local_collect_dev dev_plain))
              (mc (local_collect_dev dev_plain))))).
  { apply (tt_update_announces_local_listeners (Config true false) 0
             (priv_of dev_plain 1 [mac_C]) kernel0 (HardIface dev_plain)).
    - reflexivity.
    - reflexivity.
    - discriminate.
    - vm_compute. discriminate. }
  split.
  - apply W. vm_compute. auto.
  - intros Q. apply W in Q. vm_compute in Q.
    destruct Q as [Q|[Q|[Q|[]]]]; discriminate Q.
Defined.

(** X15.  The cycle never announces an address out of nowhere: every
    address of the announced list after a cycle was in it before, or is an
    announceable entry of the hardware list the local collector reads, or,
    with bridge snooping, the converted address of an entry snooped by the
    bridge. *)
Theorem tt_update_announces_only_listeners
  {table : Type} `{TranslationTable table}
  (cfg : config) (num_mla : Z) (bat_priv : batadv_priv table) (k : kernel)
  (a : eth_addr) :
  In a (mla_list (fst (fst
    (batadv_mcast_mla_tt_update cfg num_mla bat_priv k)))) ->
  In a (mla_list bat_priv) \/
  exists p, primary_if bat_priv = Some p /\
    ((In a (mc (local_collect_dev (soft_iface p))) /\
      batadv_mcast_mla_has_unspecial_addr a
        (local_collect_dev (soft_iface p)) = true) \/
     (CONFIG_BATMAN_ADV_MCAST_BRIDGE_SNOOP cfg = true /\
      In a (map (batadv_mcast_mla_br_addr_cpy cfg)
                (snd (br_adjacent (soft_iface p)))))).
Proof.
  destruct (tt_update_paths cfg num_mla bat_priv k)
    as [[k' [E _]]|[cand [k0 [E [_ [_ S]]]]]]; rewrite E; cbn [fst].
  - intros Ha. left. exact Ha.
  - destruct (tt_update_update_spec bat_priv cand k0)
      as [added [k' [U [_ [M _]]]]].
    rewrite U. cbn [fst mla_list]. intros Ha.
    apply (reconciled_addresses _ _ _ M a) in Ha.
    right. apply S, Ha.
Qed.

Lemma tt_update_announces_only_listeners_witness :
  In mac_C [mac_C] \/
  exists p, primary_if (priv_of (dev_bridged (0, [snoop_C])) 1 [mac_C])
            = Some p /\
    ((In mac_C (mc (local_collect_dev (soft_iface p))) /\
      batadv_mcast_mla_has_unspecial_addr mac_C
        (local_collect_dev (soft_iface p)) = true) \/
     (CONFIG_BATMAN_ADV_MCAST_BRIDGE_SNOOP (Config true true) = true /\
      In mac_C (map (batadv_mcast_mla_br_addr_cpy (Config true true))
                    (snd (br_adjacent (soft_iface p)))))).
Proof.
  apply (tt_update_announces_only_listeners (Config true true) 3
           (priv_of (dev_bridged (0, [snoop_C])) 1 [mac_C]) kernel0 mac_C).
  vm_compute. auto.
Defined.

(** ** A steady state *)

(* As long as no allocation fails, what the collectors return does not
   depend on the kernel state they start from. *)
Lemma kmalloc_never_fails (k : kernel) :
  Forall (fun b => b = true) (kmalloc_oracle k) ->
  exists k1, kmalloc k = (true, k1) /\
             Forall (fun b => b = true) (kmalloc_oracle k1).
Proof.
  unfold kmalloc. intros NF.
  destruct (kmalloc_oracle k) as [|b o].
  - eexists. split; [reflexivity|]. constructor.
  - inversion NF as [|? ? Hb Ho]; subst.
    eexists. split; [reflexivity|]. exact Ho.
Qed.

Lemma local_collect_loop_never_fails (dev : net_device) (num_mla_max : Z) :
  forall mc_list num_mla l k k2,
    Forall (fun b => b = true) (kmalloc_oracle k) ->
    Forall (fun b => b = true) (kmalloc_oracle k2) ->
    fst (local_collect_loop dev num_mla_max mc_list num_mla l k)
    = fst (local_collect_loop dev num_mla_max mc_list num_mla l k2) /\
    Forall (fun b => b = true)
      (kmalloc_oracle
         (snd (local_collect_loop dev num_mla_max mc_list num_mla l k))).
Proof.
  induction mc_list as [|e rest IH]; intros n l k k2 NF NF2;
    cbn [local_collect_loop].
  - split; [reflexivity | exact NF].
  - destruct (n >=? num_mla_max); [split; [reflexivity | exact NF]|].
    destruct (batadv_mcast_mla_has_unspecial_addr e dev); cbn [negb].
    2:{ apply IH; assumption. }
    destruct (kmalloc_never_fails k NF) as [k1 [-> NF1]].
    destruct (kmalloc_never_fails k2 NF2) as [k21 [-> NF21]].
    apply IH; assumption.
Qed.

Lemma bridge_collect_loop_never_fails (cfg : config) (num_mla_max : Z) :
  forall br_list ret0 num_mla l k k2,
    Forall (fun b => b = true) (kmalloc_oracle k) ->
    Forall (fun b => b = true) (kmalloc_oracle k2) ->
    fst (bridge_collect_loop cfg num_mla_max br_list ret0 num_mla l k)
    = fst (bridge_collect_loop cfg num_mla_max br_list ret0 num_mla l k2) /\
    Forall (fun b => b = true)
      (kmalloc_oracle
         (snd (bridge_collect_loop cfg num_mla_max br_list ret0 num_mla l
                 k))).
Proof.
  induction br_list as [|e rest IH]; intros r0 n l k k2 NF NF2;
    cbn [bridge_collect_loop].
  - split; [reflexivity | exact NF].
  - destruct (n >=? num_mla_max); [split; [reflexivity | exact NF]|].
    cbv zeta.
    destruct (batadv_mcast_mla_is_duplicate
                (batadv_mcast_mla_br_addr_cpy cfg e) l).
    { apply IH; assumption. }
    destruct (kmalloc_never_fails k NF) as [k1 [-> NF1]].
    destruct (kmalloc_never_fails k2 NF2) as [k21 [-> NF21]].
    apply IH; assumption.
Qed.

Lemma local_collect_never_fails (dev : net_device) (l : list eth_addr)
  (num_mla_max : Z) (k k2 : kernel) :
  Forall (fun b => b = true) (kmalloc_oracle k) ->
  Forall (fun b => b = true) (kmalloc_oracle k2) ->
  fst (batadv_mcast_mla_local_collect dev l num_mla_max k)
  = fst (batadv_mcast_mla_local_collect dev l num_mla_max k2) /\
  Forall (fun b => b = true)
    (kmalloc_oracle (snd (batadv_mcast_mla_local_collect dev l num_mla_max
                            k))).
Proof.
  intros NF NF2. unfold batadv_mcast_mla_local_collect. cbv zeta.
  destruct (local_collect_loop_never_fails (local_collect_dev dev)
              num_mla_max (mc (local_collect_dev dev)) 0 l k k2 NF NF2)
    as [E N].
  destruct (local_collect_loop (local_collect_dev dev) num_mla_max
              (mc (local_collect_dev dev)) 0 l k) as [[[r n'] l1] k1].
  destruct (local_collect_loop (local_collect_dev dev) num_mla_max
              (mc (local_collect_dev dev)) 0 l k2) as [[[r2 n2'] l2] k21].
  cbn [fst snd] in *. inversion E; subst. auto.
Qed.

Lemma bridge_collect_never_fails (cfg : config) (dev : net_device)
  (l : list eth_addr) (num_mla_max : Z) (k k2 : kernel) :
  Forall (fun b => b = true) (kmalloc_oracle k) ->
  Forall (fun b => b = true) (kmalloc_oracle k2) ->
  fst (batadv_mcast_mla_bridge_collect cfg dev l num_mla_max k)
  = fst (batadv_mcast_mla_bridge_collect cfg dev l num_mla_max k2).
Proof.
  intros NF NF2.
  unfold batadv_mcast_mla_bridge_collect, br_multicast_list_adjacent.
  destruct (br_adjacent dev) as [r0 bl].
  destruct (r0 <? 0).
  - rewrite !br_ip_list_free_exact. reflexivity.
  - set (ka := Kernel (kmalloc_oracle k) (hw_addr_live k)
                 (br_ip_live k + Z.of_nat (length bl)) (dmesg k)).
    set (kb := Kernel (kmalloc_oracle k2) (hw_addr_live k2)
                 (br_ip_live k2 + Z.of_nat (length bl)) (dmesg k2)).
    destruct (bridge_collect_loop_never_fails cfg num_mla_max bl r0 0
                l ka kb NF NF2) as [E _].
    destruct (bridge_collect_loop cfg num_mla_max bl r0 0 l ka)
      as [[[r n'] l1] k1].
    destruct (bridge_collect_loop cfg num_mla_max bl r0 0 l kb)
      as [[[r2 n2'] l2] k21].
    cbn [fst] in E. inversion E; subst.
    rewrite !br_ip_list_free_exact. reflexivity.
Qed.

(* With the same primary interface and switch, and no allocation failure,
   two cycles take the same way and, through update:, reconcile against the
   same candidate list. *)
Lemma tt_update_same_path {table : Type} `{TranslationTable table}
  (cfg : config) (num_mla : Z) (bat_priv bat_priv2 : batadv_priv table)
  (k k2 : kernel) :
  primary_if bat_priv2 = primary_if bat_priv ->
  mcast_group_awareness bat_priv2 = mcast_group_awareness bat_priv ->
  Forall (fun b => b = true) (kmalloc_oracle k) ->
  Forall (fun b => b = true) (kmalloc_oracle k2) ->
  (fst (fst (batadv_mcast_mla_tt_update cfg num_mla bat_priv k)) = bat_priv /\
   fst (fst (batadv_mcast_mla_tt_update cfg num_mla bat_priv2 k2))
   = bat_priv2) \/
  (exists mcast_list k0 k02,
     batadv_mcast_mla_tt_update cfg num_mla bat_priv k
     = tt_update_update bat_priv mcast_list k0 /\
     batadv_mcast_mla_tt_update cfg num_mla bat_priv2 k2
     = tt_update_update bat_priv2 mcast_list k02).
Proof.
  intros P A NF NF2. unfold batadv_mcast_mla_tt_update. rewrite P, A.
  destruct (primary_if bat_priv) as [p|].
  2:{ left. split; reflexivity. }
  destruct (mcast_group_awareness bat_priv =? 0).
  { right. exists [], k, k2. split; reflexivity. }
  cbv zeta.
  destruct (local_collect_never_fails (soft_iface p) [] BATADV_MLA_MAX k k2
              NF NF2) as [E1 N1].
  destruct (local_collect_never_fails (soft_iface p) [] BATADV_MLA_MAX k2 k
              NF2 NF) as [_ N2].
  destruct (batadv_mcast_mla_local_collect (soft_iface p) [] BATADV_MLA_MAX k)
    as [[ret1 l1] k1].
  destruct (batadv_mcast_mla_local_collect (soft_iface p) [] BATADV_MLA_MAX k2)
    as [[ret1' l1'] k1'].
  cbn [fst snd] in *. inversion E1; subst ret1' l1'. clear E1.
  destruct (ret1 <? 0).
  { left.
    destruct (tt_update_out_spec bat_priv l1 k1) as [k' [-> _]].
    destruct (tt_update_out_spec bat_priv2 l1 k1') as [k'' [-> _]].
    split; reflexivity. }
  destruct (CONFIG_BATMAN_ADV_MCAST_BRIDGE_SNOOP cfg).
  2:{ right. exists l1, k1, k1'. split; reflexivity. }
  pose proof (bridge_collect_never_fails cfg (soft_iface p) l1
                (BATADV_MLA_MAX - num_mla) k1 k1' N1 N2) as E2.
  destruct (batadv_mcast_mla_bridge_collect cfg (soft_iface p) l1
              (BATADV_MLA_MAX - num_mla) k1) as [[[ret2 l2] bl2] k2a].
  destruct (batadv_mcast_mla_bridge_collect cfg (soft_iface p) l1
              (BATADV_MLA_MAX - num_mla) k1') as [[[ret2' l2'] bl2'] k2b].
  cbn [fst] in E2. inversion E2; subst ret2' l2' bl2'. clear E2.
  destruct (ret2 <? 0).
  { left.
    destruct (tt_update_out_spec bat_priv l2 k2a) as [k' [-> _]].
    destruct (tt_update_out_spec bat_priv2 l2 k2b) as [k'' [-> _]].
    split; reflexivity. }
  right. exists l2, k2a, k2b. split; reflexivity.
Qed.

(** X16.  A steady state: when no allocation fails, running the cycle again
    on the state a cycle has left, with the memberships of the devices
    unchanged, changes neither the announced list nor the translation table
    (whatever the table is); on the call log, the second cycle makes no
    call. *)
Theorem tt_update_twice_changes_nothing
  {table : Type} `{TranslationTable table}
  (cfg : config) (num_mla : Z) (bat_priv : batadv_priv table)
  (k k2 : kernel) :
  Forall (fun b => b = true) (kmalloc_oracle k) ->
  Forall (fun b => b = true) (kmalloc_oracle k2) ->
  fst (fst (batadv_mcast_mla_tt_update cfg num_mla
              (fst (fst (batadv_mcast_mla_tt_update cfg num_mla bat_priv k)))
              k2))
  = fst (fst (batadv_mcast_mla_tt_update cfg num_mla bat_priv k)).
Proof.
  intros NF NF2.
  pose proof (tt_update_frame cfg num_mla bat_priv k)
    as [FA FP].
  destruct (tt_update_same_path cfg num_mla bat_priv
              (fst (fst (batadv_mcast_mla_tt_update cfg num_mla bat_priv k)))
              k k2 FP FA NF NF2) as [[E1 E2]|[cand [k0 [k02 [E1 E2]]]]].
  - exact E2.
  - rewrite E2. rewrite E1. apply tt_update_update_idem.
Qed.

Lemma tt_update_twice_changes_nothing_witness :
  fst (fst (batadv_mcast_mla_tt_update (Config true true) 3
              (fst (fst (batadv_mcast_mla_tt_update (Config true true) 3
                 (priv_of (dev_bridged (0, [snoop_C])) 1 [mac_C; mac_B])
                 kernel0)))
              (Kernel [true; true] 4 0 [])))
  = fst (fst (batadv_mcast_mla_tt_update (Config true true) 3
                (priv_of (dev_bridged (0, [snoop_C])) 1 [mac_C; mac_B])
                kernel0)).
Proof.
  apply (tt_update_twice_changes_nothing (Config true true) 3
           (priv_of (dev_bridged (0, [snoop_C])) 1 [mac_C; mac_B])
           kernel0 (Kernel [true; true] 4 0 [])).
  - constructor.
  - repeat constructor.
Defined.

(** ** Freeing a list, and the duplicate test *)

(** X17.  [batadv_mcast_mla_collect_free] leaves the list empty and frees
    one object for each entry it held, and touches nothing else. *)
Theorem collect_free_frees_every_entry (mcast_list : list eth_addr)
  (k : kernel) :
  batadv_mcast_mla_collect_free mcast_list k
  = ([], Kernel (kmalloc_oracle k)
                (hw_addr_live k - Z.of_nat (length mcast_list))
                (br_ip_live k) (dmesg k)).
Proof.
  revert k. induction mcast_list as [|e l IH]; intros k.
  - simpl. destruct k. simpl. rewrite Z.sub_0_r. reflexivity.
  - cbn [batadv_mcast_mla_collect_free]. rewrite IH. unfold kfree.
    cbn [kmalloc_oracle hw_addr_live br_ip_live dmesg length].
    do 2 f_equal. lia.
Qed.

(** X18.  [batadv_mcast_mla_is_duplicate] answers true exactly when some
    entry of the list agrees with the address in all six octets. *)
Theorem is_duplicate_iff_same_octets (mcast_addr : eth_addr)
  (mcast_list : list eth_addr) :
  batadv_mcast_mla_is_duplicate mcast_addr mcast_list = true <->
  exists e, In e mcast_list /\
    o0 e = o0 mcast_addr /\ o1 e = o1 mcast_addr /\ o2 e = o2 mcast_addr /\
    o3 e = o3 mcast_addr /\ o4 e = o4 mcast_addr /\ o5 e = o5 mcast_addr.
Proof.
  rewrite is_duplicate_In. split.
  - intros Hin. exists mcast_addr. repeat split. exact Hin.
  - intros [e [Hin [E0 [E1 [E2 [E3 [E4 E5]]]]]]].
    assert (e = mcast_addr).
    { destruct e, mcast_addr. simpl in *. congruence. }
    subst e. exact Hin.
Qed.

(** ** What a collector leaves behind when an allocation fails *)







(** ** The all-zero address in the candidate list *)

Lemma count_absent (a : eth_addr) (l : list eth_addr) :
  ~ In a l -> filter (eth_eqb a) l = [].
Proof.
  intros N. apply filter_all_false. intros x Hx.
  apply eth_eqb_neq. intros ->. contradiction.
Qed.

Lemma count_in_NoDup (a : eth_addr) (l : list eth_addr) :
  NoDup l -> In a l -> length (filter (eth_eqb a) l) = 1%nat.
Proof.
  induction l as [|x l IH]; intros ND Hin; [destruct Hin|].
  inversion ND as [|? ? Hn ND']; subst. cbn [filter].
  destruct (eth_eqb a x) eqn:Q.
  - apply eth_eqb_eq in Q. subst x.
    rewrite count_absent by exact Hn. reflexivity.
  - apply eth_eqb_neq in Q. destruct Hin as [->|Hin]; [congruence|].
    apply IH; assumption.
Qed.

(** C8, amended.  A snooped entry whose family is neither IPv4 nor IPv6 is
    mapped to the all-zero address, and from there on it is an address like
    any other, as the bridge path applies no classifier.  When the
    collecting loop reaches the entry with budget left and the call does not
    end in -ENOMEM, the all-zero address is in the candidate list; it is
    stored once: if the list held it already, no further copy is added,
    whatever follows, and otherwise the list holds it exactly once
    afterwards.  The reconciler adds a candidate all-zero address to the
    table unless it is announced already. *)
Theorem unknown_family_maps_to_zero_and_is_collected
  (cfg : config) (e : br_ip) (num_mla_max : Z) (rest : list br_ip)
  (ret0 num_mla : Z) (l : list eth_addr) (k : kernel)
  (bat_priv : batadv_priv (list tt_call)) (mcast_list : list eth_addr)
  (kr : kernel) :
  proto e <> ETH_P_IP -> proto e <> ETH_P_IPV6 ->
  batadv_mcast_mla_br_addr_cpy cfg e = eth_zero /\
  (num_mla < num_mla_max ->
   fst (fst (fst (bridge_collect_loop cfg num_mla_max (e :: rest) ret0
                    num_mla l k))) <> - ENOMEM ->
   let l' := snd (fst (bridge_collect_loop cfg num_mla_max (e :: rest) ret0
                         num_mla l k)) in
   In eth_zero l' /\
   (In eth_zero l ->
    length (filter (eth_eqb eth_zero) l')
    = length (filter (eth_eqb eth_zero) l)) /\
   (~ In eth_zero l -> length (filter (eth_eqb eth_zero) l') = 1%nat)) /\
  (In eth_zero mcast_list -> ~ In eth_zero (mla_list bat_priv) ->
   In (Tt_local_add eth_zero)
      (tt (fst (fst (tt_update_update bat_priv mcast_list kr)))) /\
   In eth_zero
      (mla_list (fst (fst (tt_update_update bat_priv mcast_list kr))))).
Proof.
  intros N4 N6.
  pose proof (br_addr_cpy_unknown cfg e N4 N6) as Z0.
  split; [exact Z0|]. split.
  - intros B R l'.
    destruct (bridge_collect_loop cfg num_mla_max (e :: rest) ret0 num_mla
                l k) as [[[r n'] l1] k1] eqn:E.
    cbn [fst snd] in R, l'. subst l'.
    destruct (bridge_collect_loop_fresh _ _ _ _ _ _ _ _ _ _ _ E)
      as [added [-> [ND Fr]]].
    assert (Hin : In eth_zero (added ++ l)).
    { cbn [bridge_collect_loop] in E.
      destruct (num_mla >=? num_mla_max) eqn:G.
      { rewrite Z.geb_leb in G. apply Z.leb_le in G. lia. }
      cbv zeta in E. rewrite Z0 in E.
      destruct (batadv_mcast_mla_is_duplicate eth_zero l) eqn:D.
      - apply in_or_app. right. apply is_duplicate_In. exact D.
      - destruct (kmalloc k) as [[|] k2].
        + destruct (bridge_collect_loop_inv _ _ _ _ _ _ _ _ _ _ _ E)
            as [added2 [Q _]].
          rewrite Q. apply in_or_app. right. left. reflexivity.
        + inversion E; subst. congruence. }
    split; [exact Hin|].
    rewrite filter_app, length_app. split.
    + intros Hl. rewrite (count_absent eth_zero added); [reflexivity|].
      intros Ha. apply (Fr _ Ha). exact Hl.
    + intros Hl. rewrite (count_absent eth_zero l) by exact Hl.
      rewrite count_in_NoDup; [reflexivity | exact ND |].
      apply in_app_or in Hin. tauto.
  - intros Hc Hn.
    destruct (tt_update_update_spec bat_priv mcast_list kr)
      as [added [k' [E [_ [M _]]]]].
    rewrite E. cbn [fst tt mla_list].
    assert (Ha : In eth_zero added) by (apply M; tauto).
    split.
    + rewrite call_log_adds. apply in_or_app. right.
      apply in_map. exact Ha.
    + apply in_or_app. right. exact Ha.
Qed.

Lemma unknown_family_maps_to_zero_and_is_collected_witness :
  batadv_mcast_mla_br_addr_cpy (Config true true) snoop_unknown = eth_zero /\
  In eth_zero
     (snd (fst (bridge_collect_loop (Config true true) BATADV_MLA_MAX
                  [snoop_unknown; snoop_C; snoop_unknown] 0 0 [mac_A]
                  kernel0))) /\
  length (filter (eth_eqb eth_zero)
     (snd (fst (bridge_collect_loop (Config true true) BATADV_MLA_MAX
                  [snoop_unknown; snoop_C; snoop_unknown] 0 0 [mac_A]
                  kernel0)))) = 1%nat /\
  In (Tt_local_add eth_zero)
     (tt (fst (fst (tt_update_update (priv_of dev_plain 1 [mac_A])
                      [eth_zero; mac_A] kernel0)))).
Proof.
  destruct (unknown_family_maps_to_zero_and_is_collected
              (Config true true) snoop_unknown BATADV_MLA_MAX
              [snoop_C; snoop_unknown] 0 0
              [mac_A] kernel0 (priv_of dev_plain 1 [mac_A])
              [eth_zero; mac_A] kernel0)
    as [Z0 [C R]].
  - discriminate.
  - discriminate.
  - destruct C as [C1 [_ C3]]; [reflexivity | discriminate |].
    split; [exact Z0|]. split; [exact C1|]. split.
    + apply C3. intros [Q|[]]. discriminate Q.
    + apply R.
      * left. reflexivity.
      * intros [Q|[]]. discriminate Q.
Defined.

(** ** The capacity of the candidate list and of the announced list *)





